(** * Cloud-resource command-line managers: a shallow embedding

    The repository holds four independent scripts, each a thin layer over
    the vendor SDK of one service:

    - [dynamo_manager.py]  (table store)        -> [Module Dynamo]
    - [s3_manager.py]      (object storage)     -> [Module S3]
    - [sns_manager.py]     (notifications)      -> [Module SNS]
    - [cwlogs_manager.py]  (log storage)        -> [Module CWLogs]

    The SDK and the remote service are not part of the repository: every
    module takes them as a parameter (a [remote] function over an abstract
    world [W]) and records each interaction in a trace, so that statements
    such as "exactly one create call" are statements about that trace. *)

From Stdlib Require Import String List ZArith Bool Arith Lia.
From Stdlib Require Import DecimalString.
Import ListNotations.
Open Scope string_scope.

Set Implicit Arguments.
Set Warnings "-register-all".

(** ** Python values, exceptions and results *)

Module Py.

(** The exceptions the scripts can meet.  [ClientError] is
    [botocore.exceptions.ClientError], the provider error the scripts name in
    their [except] clauses; the others are raised by the interpreter or by
    the SDK outside that class. *)
Inductive exn : Type :=
| ClientError (msg : string)
| KeyError (msg : string)
| AttributeError (msg : string)
| OSError (msg : string)
| ValueError (msg : string)
| RecursionError
| OtherError (msg : string).

Inductive result (A : Type) : Type :=
| Ok (a : A)
| Raise (e : exn).
Arguments Ok {A} a.
Arguments Raise {A} e.

(** JSON-like values: what [json.loads] returns and what the SDK takes and
    gives back.  A [dict] keeps insertion order, as Python's does. *)
Inductive pyval : Type :=
| PNone
| PBool (b : bool)
| PInt (z : Z)
| PStr (s : string)
| PList (l : list pyval)
| PDict (d : list (string * pyval)).

Definition dict : Type := list (string * pyval).

Definition keys (d : dict) : list string := map fst d.

(** [d.get(k, default)] *)
Fixpoint dict_get (d : dict) (k : string) (default : pyval) : pyval :=
  match d with
  | [] => default
  | (k', v) :: d' => if String.eqb k' k then v else dict_get d' k default
  end.

(** [d[k]] *)
Fixpoint dict_index (d : dict) (k : string) : result pyval :=
  match d with
  | [] => Raise (KeyError k)
  | (k', v) :: d' => if String.eqb k' k then Ok v else dict_index d' k
  end.

(** [d[k] = v]: an existing key keeps its position, a new one goes last. *)
Fixpoint dict_set (d : dict) (k : string) (v : pyval) : dict :=
  match d with
  | [] => [(k, v)]
  | (k', v') :: d' =>
      if String.eqb k' k then (k', v) :: d' else (k', v') :: dict_set d' k v
  end.

(** Truth value of an optional string argument: [None] and the empty string
    are false. *)
Definition truthy (s : option string) : bool :=
  match s with
  | None => false
  | Some EmptyString => false
  | Some (String _ _) => true
  end.

(** [s or default] for an optional string. *)
Definition or_else (s : option string) (default : string) : string :=
  match s with
  | Some (String a r) => String a r
  | _ => default
  end.

Definition opt_to_py (s : option string) : pyval :=
  match s with
  | None => PNone
  | Some x => PStr x
  end.

Fixpoint list_eqb (l1 l2 : list string) : bool :=
  match l1, l2 with
  | [], [] => true
  | a :: l1', b :: l2' => String.eqb a b && list_eqb l1' l2'
  | _, _ => false
  end.

(** Decimal rendering of a counter, as an f-string prints it. *)
Definition str_of_nat (n : nat) : string := NilZero.string_of_uint (Nat.to_uint n).

End Py.
Import Py.

(** ** The effect monad: world, exceptions and a trace of interactions *)

Module Eff.

Inductive level : Type := Warning | Error.

(** One observable step.  [Remote c failure] is one SDK call [c] with the
    exception it raised, if any. *)
Inductive event (C : Type) : Type :=
| Remote (c : C) (failure : option exn)
| Log (lvl : level) (msg : string)
| Stdout (msg : string).
Arguments Log {C} lvl msg.
Arguments Stdout {C} msg.

Definition failure_of {A} (r : result A) : option exn :=
  match r with
  | Ok _ => None
  | Raise e => Some e
  end.

Section Monad.
Variables (C W : Type).

(** A computation reads the world and yields a result, the new world and
    the events it produced, oldest first. *)
Definition M (A : Type) : Type := W -> result A * W * list (event C).

Definition ret {A} (a : A) : M A := fun w => (Ok a, w, []).

Definition raise {A} (e : exn) : M A := fun w => (Raise e, w, []).

Definition bind {A B} (m : M A) (f : A -> M B) : M B :=
  fun w =>
    match m w with
    | (Ok a, w1, t1) =>
        match f a w1 with
        | (r, w2, t2) => (r, w2, (t1 ++ t2)%list)
        end
    | (Raise e, w1, t1) => (Raise e, w1, t1)
    end.

(** [try: m  except ClientError as err: h err] *)
Definition try_except_ClientError {A} (m : M A) (h : string -> M A) : M A :=
  fun w =>
    match m w with
    | (Raise (ClientError err), w1, t1) =>
        match h err w1 with
        | (r, w2, t2) => (r, w2, (t1 ++ t2)%list)
        end
    | other => other
    end.

Definition log (lvl : level) (msg : string) : M unit :=
  fun w => (Ok tt, w, [Log lvl msg]).

Definition print (msg : string) : M unit :=
  fun w => (Ok tt, w, [Stdout msg]).

(** Lift a Python-level result (a dictionary lookup, say). *)
Definition lift {A} (r : result A) : M A := fun w => (r, w, []).

Definition outcome {A} (x : result A * W * list (event C)) : result A :=
  fst (fst x).
Definition world {A} (x : result A * W * list (event C)) : W :=
  snd (fst x).
Definition trace {A} (x : result A * W * list (event C)) : list (event C) :=
  snd x.
End Monad.

Arguments ret {C W A} a.
Arguments raise {C W A} e.
Arguments log {C W} lvl msg.
Arguments print {C W} msg.
Arguments lift {C W A} r.

(** The SDK calls of a trace, in order, without their outcomes. *)
Fixpoint calls {C} (t : list (event C)) : list C :=
  match t with
  | [] => []
  | Remote c _ :: t' => c :: calls t'
  | _ :: t' => calls t'
  end.

(** The log records of a trace, in order. *)
Fixpoint logs {C} (t : list (event C)) : list (level * string) :=
  match t with
  | [] => []
  | Log l m :: t' => (l, m) :: logs t'
  | _ :: t' => logs t'
  end.

End Eff.
Import Eff.

Declare Scope eff_scope.
Delimit Scope eff_scope with eff.
Notation "x <- m ;; k" := (bind m (fun x => k))
  (at level 61, m at next level, right associativity) : eff_scope.
Notation "m ;;; k" := (bind m (fun _ => k))
  (at level 61, right associativity) : eff_scope.

Open Scope eff_scope.

(** ** dynamo_manager.py *)

Module Dynamo.

Definition require_keys : list string := ["table_name"; "pk"; "pkdef"].

(** [conf.keys()]: only a JSON object has the method. *)
Definition conf_keys (conf : pyval) : result (list string) :=
  match conf with
  | PDict d => Ok (keys d)
  | _ => Raise (AttributeError "object has no attribute 'keys'")
  end.

Section ParseTabledef.
(** [open(conf_file)] followed by [fh.read()], and [json.loads]: both
    belong to the Python library and are taken as given. *)
Variable open_read : string -> result string.
Variable json_loads : string -> result pyval.

Definition parse_tabledef (conf_file : string) : result pyval :=
  match open_read conf_file with
  | Raise e => Raise e
  | Ok text =>
      match json_loads text with
      | Raise e => Raise e
      | Ok conf =>
          match conf_keys conf with
          | Raise e => Raise e
          | Ok ks =>
              if list_eqb require_keys ks then Ok conf
              else Raise (KeyError "Invalid configuration.")
          end
      end
  end.
End ParseTabledef.

(** The key set of a definition is exactly the three required keys: each
    key of the object is required and each required key is present. *)
Definition has_exactly_required_keys (d : dict) : Prop :=
  forall k, In k (keys d) <-> In k require_keys.

(** The SDK calls of the script: creating a table and waiting for it,
    deleting a table and waiting for it to be gone. *)
Inductive call : Type :=
| CreateTable (params : dict)
| WaitTableExists (TableName : pyval)
| TableDelete (table : string)
| TableWaitUntilNotExists (table : string).

(** What the argument parser hands to the script: the sub-command chosen,
    with its argument, or none. *)
Inductive command : Type :=
| create_table (tabledef : string)
| delete_table (tablename : string)
| no_command.

Definition has_key (k : string) (ks : list string) : bool :=
  existsb (String.eqb k) ks.

Section TableOperations.
Variable W : Type.
(** The SDK resource; [create_table] answers with the table resource. *)
Variable remote : call -> W -> result pyval * W.
Variable open_read : string -> result string.
Variable json_loads : string -> result pyval.

Abbreviation M := (M call W).

Definition sdk (c : call) : M pyval :=
  fun w =>
    match remote c w with
    | (r, w') => (r, w', [Remote c (failure_of r)])
    end.

Definition create_dynamo_table (table_name pk pkdef : pyval) : M pyval :=
  table <-
    sdk (CreateTable
           [("TableName", table_name);
            ("KeySchema", pk);
            ("AttributeDefinitions", pkdef);
            ("ProvisionedThroughput",
             PDict [("ReadCapacityUnits", PInt 5);
                    ("WriteCapacityUnits", PInt 5)])]) ;;
  sdk (WaitTableExists table_name) ;;;
  ret table.

(** [_dyn_client.Table(table_name)]: a handle, built without a call. *)
Definition get_dynamo_table (table_name : string) : string := table_name.

Definition delete_dynamo_table (table_name : string) : M bool :=
  let table := get_dynamo_table table_name in
  sdk (TableDelete table) ;;;
  sdk (TableWaitUntilNotExists table) ;;;
  ret true.

(** [create_dynamo_table] called with [conf] unpacked into keyword
    arguments: the keys of [conf] are bound to the
    parameters by name; a key that is no parameter, or a parameter without
    a key, is a [TypeError]. *)
Definition create_dynamo_table_kwargs (conf : pyval) : M pyval :=
  match conf with
  | PDict d =>
      if forallb (fun k => has_key k require_keys) (keys d)
         && forallb (fun p => has_key p (keys d)) require_keys
      then create_dynamo_table (dict_get d "table_name" PNone)
             (dict_get d "pk" PNone) (dict_get d "pkdef" PNone)
      else raise (OtherError "TypeError")
  | _ => raise (OtherError "TypeError")
  end.

(** The body of the script once the arguments are parsed; [sys.exit(1)]
    raises [SystemExit]. *)
Definition main (pargs : command) : M unit :=
  match pargs with
  | delete_table tablename => delete_dynamo_table tablename ;;; ret tt
  | create_table tabledef =>
      conf <- lift (parse_tabledef open_read json_loads tabledef) ;;
      create_dynamo_table_kwargs conf ;;;
      ret tt
  | no_command =>
      print "Invalid/Missing command." ;;;
      raise (OtherError "SystemExit: 1")
  end ;;;
  print "Done".
End TableOperations.

End Dynamo.

(** ** s3_manager.py *)

Module S3.

(** A bucket resource handle: it is identified by its name, everything else
    is loaded from the service on demand. *)
Record Bucket : Type := { name : string }.

(** One entry of [bucket.object_versions]. *)
Record ObjectVersion : Type := { object_key : string; version_id : string }.

(** An object resource handle, as [bucket.Object(...)] builds it. *)
Record Object : Type := { object_bucket : string; object_params : dict }.

(** The SDK calls the script makes. *)
Inductive call : Type :=
| CreateBucket (bucket location : string)
| ListBuckets
| LoadBucket (bucket : string)
| UploadFile (bucket key filename : string)
| DownloadFile (bucket : string) (params : dict) (filename : string)
| EnableVersioning (bucket : string)
| LoadVersioning (bucket : string)
| ListObjectVersions (bucket : string) (prefix : option string)
| DeleteObjects (bucket : string) (objects : list (string * string)) (quiet : bool)
| DeleteBucket (bucket : string)
| WaitUntilNotExists (bucket : string).

(** What each call gives back when it does not raise. *)
Definition resp (c : call) : Type :=
  match c with
  | ListBuckets => list string
  | LoadBucket _ => option Z            (* creation_date, None when absent *)
  | LoadVersioning _ => option string   (* versioning status *)
  | ListObjectVersions _ _ => list ObjectVersion
  | _ => unit
  end.

(** An invocation of one of the script's operations. *)
Inductive invocation : Type :=
| CallCreateBucket (name : string) (region : option string)
| CallListBuckets
| CallGetBucket (name : string) (create : bool) (region : option string)
| CallCreateBucketObject (bucket_name file_path : string) (key_prefix : option string)
| CallGetBucketObject (bucket_name object_key : string) (dest version_id : option string)
| CallEnableBucketVersioning (bucket_name : string)
| CallDeleteBucketObjects (bucket_name : string) (key_prefix : option string)
| CallDeleteBuckets (name : option string).

(** [repr] of the parameter dictionary of [create_bucket]. *)
Definition repr_params (name region : string) : string :=
  "{'Bucket': '" ++ name ++
  "', 'CreateBucketConfiguration': {'LocationConstraint': '" ++ region ++ "'}}".

(** The interpreter's default recursion limit. *)
Definition recursion_limit : nat := 1000.

Section Operations.
Variable W : Type.
(** The SDK together with the remote service. *)
Variable remote : forall c : call, W -> result (resp c) * W.
(** [Path(dest).joinpath(PosixPath(object_key).name)], from [pathlib]. *)
Variable joinpath_name : string -> string -> string.

Abbreviation M := (M call W).

Definition sdk (c : call) : M (resp c) :=
  fun w =>
    match remote c w with
    | (r, w') => (r, w', [Remote c (failure_of r)])
    end.

Definition create_bucket (name : string) (region : option string) : M bool :=
  let region := or_else region "us-east-2" in
  try_except_ClientError
    (sdk (CreateBucket name region) ;;; ret true)
    (fun err =>
       log Error (err ++ " - Params " ++ repr_params name region) ;;;
       ret false).

Fixpoint print_each (buckets : list string) (count : nat) : M nat :=
  match buckets with
  | [] => ret count
  | b :: rest => print b ;;; print_each rest (S count)
  end.

Definition list_buckets : M unit :=
  buckets <- sdk ListBuckets ;;
  count <- print_each buckets 0 ;;
  print ("Found " ++ str_of_nat count ++ " buckets!").

(** [get_bucket] calls itself; [depth] is the number of frames the
    interpreter still allows. *)
Fixpoint get_bucket_rec (depth : nat) (name : string) (create : bool)
    (region : option string) : M (option Bucket) :=
  match depth with
  | O => raise RecursionError
  | S depth' =>
      let bucket := {| name := name |} in
      creation_date <- sdk (LoadBucket name) ;;
      match creation_date with
      | Some _ => ret (Some bucket)
      | None =>
          if create then
            create_bucket name region ;;;
            get_bucket_rec depth' name false None
          else
            log Warning ("Bucket " ++ name ++ " does not exist!") ;;;
            ret None
      end
  end.

Definition get_bucket (name : string) (create : bool) (region : option string)
  : M (option Bucket) :=
  get_bucket_rec recursion_limit name create region.

(** Attribute access on the result of [get_bucket]. *)
Definition attr (bucket : option Bucket) (attribute : string) : M Bucket :=
  match bucket with
  | Some b => ret b
  | None =>
      raise (AttributeError
               ("'NoneType' object has no attribute '" ++ attribute ++ "'"))
  end.

Definition create_bucket_object (bucket_name file_path : string)
    (key_prefix : option string) : M Object :=
  bucket <- get_bucket bucket_name false None ;;
  let dest := or_else key_prefix EmptyString ++ file_path in
  b <- attr bucket "Object" ;;
  let bucket_object :=
    {| object_bucket := name b; object_params := [("key", PStr dest)] |} in
  sdk (UploadFile (name b) dest file_path) ;;;
  ret bucket_object.

Definition get_bucket_object (bucket_name object_key : string)
    (dest version_id : option string) : M (Object * string) :=
  bucket <- get_bucket bucket_name false None ;;
  let params := [("key", PStr object_key)] in
  let params :=
    if truthy version_id
    then dict_set params "VersionId" (opt_to_py version_id)
    else params in
  b <- attr bucket "Object" ;;
  let bucket_object := {| object_bucket := name b; object_params := params |} in
  let file_path := joinpath_name (or_else dest EmptyString) object_key in
  sdk (DownloadFile (name b) params file_path) ;;;
  ret (bucket_object, file_path).

Definition enable_bucket_versioning (bucket_name : string) : M (option string) :=
  bucket <- get_bucket bucket_name false None ;;
  b <- attr bucket "Versioning" ;;
  sdk (EnableVersioning (name b)) ;;;
  sdk (LoadVersioning (name b)).

Definition delete_bucket_objects (bucket_name : string)
    (key_prefix : option string) : M nat :=
  bucket <- get_bucket bucket_name false None ;;
  b <- attr bucket "object_versions" ;;
  objects <-
    (if truthy key_prefix
     then sdk (ListObjectVersions (name b) key_prefix)
     else sdk (ListObjectVersions (name b) None)) ;;
  let targets := map (fun obj => (object_key obj, version_id obj)) objects in
  sdk (DeleteObjects (name b) targets true) ;;;
  ret (length targets).

(** The loop of [delete_buckets] over the account's buckets. *)
Fixpoint delete_each (buckets : list string) (count : nat) : M nat :=
  match buckets with
  | [] => ret count
  | b :: rest =>
      count' <-
        try_except_ClientError
          (sdk (DeleteBucket b) ;;;
           sdk (WaitUntilNotExists b) ;;;
           ret (S count))
          (fun err =>
             log Warning ("Bucket " ++ b ++ ": " ++ err) ;;;
             ret count) ;;
      delete_each rest count'
  end.

Definition delete_buckets (name : option string) : M nat :=
  let count := 0 in
  if truthy name then
    bucket <- get_bucket (or_else name EmptyString) false None ;;
    match bucket with
    | Some b =>
        sdk (DeleteBucket (S3.name b)) ;;;
        sdk (WaitUntilNotExists (S3.name b)) ;;;
        ret (S count)
    | None => ret count
    end
  else
    buckets <- sdk ListBuckets ;;
    delete_each buckets 0.

(** Running an invocation for its effects. *)
Definition discard {A} (m : M A) : M unit := m ;;; ret tt.

Definition invoke (i : invocation) : M unit :=
  match i with
  | CallCreateBucket n r => discard (create_bucket n r)
  | CallListBuckets => list_buckets
  | CallGetBucket n c r => discard (get_bucket n c r)
  | CallCreateBucketObject b f k => discard (create_bucket_object b f k)
  | CallGetBucketObject b k d v => discard (get_bucket_object b k d v)
  | CallEnableBucketVersioning b => discard (enable_bucket_versioning b)
  | CallDeleteBucketObjects b k => discard (delete_bucket_objects b k)
  | CallDeleteBuckets n => discard (delete_buckets n)
  end.
End Operations.

(** What the argument parser hands to the script: the sub-command with its
    arguments ([--region] defaults to 'us-east-2'), or none. *)
Inductive args : Type :=
| create_bucket_args (name region : string)
| list_buckets_args
| get_bucket_args (name region : string)
| create_bucket_object_args (bucket_name file_path : string)
    (key_prefix : option string)
| get_bucket_object_args (bucket_name object_key : string)
    (dest version_id : option string)
| enable_bucket_versioning_args (bucket_name : string)
| delete_bucket_objects_args (bucket_name : string) (key_prefix : option string)
| delete_buckets_args (name : option string)
| no_command.

Section CommandLine.
Variable W : Type.
Variable remote : forall c : call, W -> result (resp c) * W.
Variable joinpath_name : string -> string -> string.

(** The chain of conditionals at the end of the script. *)
Definition main (a : args) : M call W unit :=
  match a with
  | create_bucket_args n r => discard (create_bucket remote n (Some r))
  | list_buckets_args => list_buckets remote
  | get_bucket_args n r => discard (get_bucket remote n false (Some r))
  | create_bucket_object_args b f k => discard (create_bucket_object remote b f k)
  | get_bucket_object_args b k d v =>
      discard (get_bucket_object remote joinpath_name b k d v)
  | enable_bucket_versioning_args b => discard (enable_bucket_versioning remote b)
  | delete_bucket_objects_args b k => discard (delete_bucket_objects remote b k)
  | delete_buckets_args n => discard (delete_buckets remote n)
  | no_command => ret tt
  end.
End CommandLine.

End S3.

(** *** create_tempfile, the helper of s3_manager.py that writes a text file *)

Module Tempfile.

(** The two things the helper asks of the outside: a random name
    ([uuid.uuid4().hex]) and the writing of a file. *)
Inductive call : Type :=
| Uuid4Hex
| WriteFile (filename content : string).

Definition resp (c : call) : Type :=
  match c with
  | Uuid4Hex => string
  | WriteFile _ _ => unit
  end.

(** [s * n] on strings. *)
Fixpoint repeat_string (s : string) (n : nat) : string :=
  match n with
  | O => EmptyString
  | S n' => s ++ repeat_string s n'
  end.

Section Operations.
Variable W : Type.
Variable remote : forall c : call, W -> result (resp c) * W.

Definition sdk (c : call) : M call W (resp c) :=
  fun w =>
    match remote c w with
    | (r, w') => (r, w', [Remote c (failure_of r)])
    end.

Definition create_tempfile (file_name content : option string) (size : Z)
  : M call W string :=
  stem <- (if truthy file_name then ret (or_else file_name EmptyString)
           else sdk Uuid4Hex) ;;
  let filename := stem ++ ".txt" in
  sdk (WriteFile filename (repeat_string (or_else content "0") (Z.to_nat size))) ;;;
  ret filename.
End Operations.

End Tempfile.

(** ** sns_manager.py *)

Module SNS.

(** The client methods the script calls, each with keyword parameters. *)
Inductive api : Type :=
| create_topic
| list_topics
| list_subscriptions
| subscribe
| publish
| unsubscribe
| delete_topic.

Definition call : Type := (api * dict)%type.

Section Operations.
Variable W : Type.
(** The SDK client: every method answers with a dictionary. *)
Variable remote : api -> dict -> W -> result dict * W.

Abbreviation M := (M call W).

Definition sdk (method : api) (params : dict) : M dict :=
  fun w =>
    match remote method params w with
    | (r, w') => (r, w', [Remote (method, params) (failure_of r)])
    end.

Definition create_sns_topic (topic_name : string) : M bool :=
  sdk create_topic [("Name", PStr topic_name)] ;;;
  ret true.

Definition list_sns_topics (next_token : option string) : M (pyval * pyval) :=
  let params :=
    if truthy next_token then [("NextToken", opt_to_py next_token)] else [] in
  topics <- sdk list_topics params ;;
  ret (dict_get topics "Topics" (PList []), dict_get topics "NextToken" PNone).

Definition list_sns_subscriptions (next_token : option string)
  : M (pyval * pyval) :=
  let params :=
    if truthy next_token then [("NextToken", opt_to_py next_token)] else [] in
  subscriptions <- sdk list_subscriptions params ;;
  ret (dict_get subscriptions "Subscriptions" (PList []),
       dict_get subscriptions "NextToken" PNone).

Definition delete_sns_topic (topic_arn : string) : M bool :=
  sdk delete_topic [("TopicArn", PStr topic_arn)] ;;;
  ret true.
End Operations.

Section Printing.
Variable W : Type.
Variable remote : api -> dict -> W -> result dict * W.
(** [str] of a response dictionary, as [print] shows it. *)
Variable repr : dict -> string.

Definition subscribe_sns_topic (topic_arn mobile_number : string)
  : M call W bool :=
  let params :=
    [("TopicArn", PStr topic_arn);
     ("Protocol", PStr "sms");
     ("Endpoint", PStr mobile_number)] in
  res <- sdk remote subscribe params ;;
  print (repr res) ;;;
  ret true.

Definition send_sns_message (topic_arn message : string) : M call W bool :=
  let params := [("TopicArn", PStr topic_arn); ("Message", PStr message)] in
  res <- sdk remote publish params ;;
  print (repr res) ;;;
  ret true.

Definition unsubscribe_sns_topic (subscription_arn : string) : M call W bool :=
  let params := [("SubscriptionArn", PStr subscription_arn)] in
  res <- sdk remote unsubscribe params ;;
  print (repr res) ;;;
  ret true.
End Printing.

End SNS.

(** ** cwlogs_manager.py *)

Module CWLogs.

Inductive api : Type :=
| describe_log_groups
| describe_log_streams
| filter_log_events_api.

(** A call names the region the client was built for, the method and its
    keyword parameters. *)
Record call : Type :=
  { region_name : option string; method : api; params : dict }.

Section Operations.
Variable W : Type.
Variable remote : call -> W -> result dict * W.

Abbreviation M := (M call W).

Definition sdk (region : option string) (m : api) (p : dict) : M dict :=
  fun w =>
    let c := {| region_name := region; method := m; params := p |} in
    match remote c w with
    | (r, w') => (r, w', [Remote c (failure_of r)])
    end.

Definition list_log_groups (group_name region_name : option string) : M pyval :=
  let params :=
    if truthy group_name
    then [("logGroupNamePrefix", opt_to_py group_name)]
    else [] in
  res <- sdk region_name describe_log_groups params ;;
  lift (dict_index res "logGroups").

Definition list_log_group_streams (group_name : string)
    (stream_name region_name : option string) : M pyval :=
  let params :=
    if truthy (Some group_name)
    then [("logGroupName", PStr group_name)]
    else [] in
  let params :=
    if truthy stream_name
    then dict_set params "logStreamNamePrefix" (opt_to_py stream_name)
    else params in
  res <- sdk region_name describe_log_streams params ;;
  lift (dict_index res "logStreams").

Definition filter_log_events (group_name filter_pat : string)
    (start stop region_name : option string) : M pyval :=
  let params :=
    [("logGroupName", PStr group_name); ("filterPattern", PStr filter_pat)] in
  let params :=
    if truthy start then dict_set params "startTime" (opt_to_py start)
    else params in
  let params :=
    if truthy stop then dict_set params "endTime" (opt_to_py stop)
    else params in
  res <- sdk region_name filter_log_events_api params ;;
  lift (dict_index res "events").
End Operations.

(** The namespace the argument parser builds: one attribute per declared
    argument, [None] for an option that was not given. *)
Definition namespace : Type := list (string * option string).

(** [args.a] *)
Fixpoint getattr (args : namespace) (a : string) : result (option string) :=
  match args with
  | [] =>
      Raise (AttributeError
               ("'Namespace' object has no attribute '" ++ a ++ "'"))
  | (a', v) :: rest => if String.eqb a' a then Ok v else getattr rest a
  end.

(** The arguments each sub-command declares, as the [add_argument] calls of
    the script name them. *)
Definition declared_arguments : list (string * list string) :=
  [("list_log_groups", ["group_name"; "region"]);
   ("list_log_group_streams", ["group_name"; "stream_name"; "region_name"]);
   ("filter_log_events",
    ["group_name"; "filter_pat"; "start"; "stop"; "region_name"])].

(** The namespace of a sub-command: [command] and the declared arguments,
    with the values given. *)
Definition parsed (command : string) (values : list (option string)) : namespace :=
  match
    (fix find (l : list (string * list string)) : option (list string) :=
       match l with
       | [] => None
       | (c, dests) :: l' => if String.eqb c command then Some dests else find l'
       end) declared_arguments
  with
  | Some dests => ("command", Some command) :: combine dests values
  | None => [("command", None)]
  end.

Definition is_command (command : option string) (name : string) : bool :=
  match command with
  | Some c => String.eqb c name
  | None => false
  end.

Section CommandLine.
Variable W : Type.
Variable remote : call -> W -> result dict * W.
(** [str] of a result, as [print] shows it. *)
Variable repr : pyval -> string.

(** The chain of conditionals at the end of the script.  A positional
    argument is always a string. *)
Definition main (args : namespace) : M call W unit :=
  command <- lift (getattr args "command") ;;
  if is_command command "list_log_groups" then
    group_name <- lift (getattr args "group_name") ;;
    region_name <- lift (getattr args "region_name") ;;
    out <- list_log_groups remote group_name region_name ;;
    print (repr out)
  else if is_command command "list_log_group_streams" then
    group_name <- lift (getattr args "group_name") ;;
    stream_name <- lift (getattr args "stream_name") ;;
    region_name <- lift (getattr args "region_name") ;;
    out <- list_log_group_streams remote (or_else group_name EmptyString)
             stream_name region_name ;;
    print (repr out)
  else if is_command command "filter_log_events" then
    group_name <- lift (getattr args "group_name") ;;
    filter_pat <- lift (getattr args "filter_pat") ;;
    start <- lift (getattr args "start") ;;
    stop <- lift (getattr args "stop") ;;
    region_name <- lift (getattr args "region_name") ;;
    filter_log_events remote (or_else group_name EmptyString)
      (or_else filter_pat EmptyString) start stop region_name ;;;
    ret tt
  else ret tt.
End CommandLine.

End CWLogs.

(** ** In-memory stand-ins for the services

    Small executable services on which the operations can be run: they serve
    as concrete instances of the [remote] parameters. *)

Module Fake.

Definition mem (x : string) (l : list string) : bool :=
  existsb (String.eqb x) l.

Definition without (x : string) (l : list string) : list string :=
  filter (fun y => negb (String.eqb x y)) l.

(** *** Table definitions on disk *)

(** A name between double quotes, as JSON writes it. *)
Definition quoted (s : string) : string :=
  let dq := String (Ascii.Ascii false true false false false true false false)
              EmptyString in
  dq ++ s ++ dq.

(** [{"table_name": "t1", "pk": [], "pkdef": []}] *)
Definition in_order_text : string :=
  "{" ++ quoted "table_name" ++ ": " ++ quoted "t1" ++ ", "
      ++ quoted "pk" ++ ": [], " ++ quoted "pkdef" ++ ": []}".

(** [{"pk": [], "table_name": "t1", "pkdef": []}] *)
Definition swapped_text : string :=
  "{" ++ quoted "pk" ++ ": [], " ++ quoted "table_name" ++ ": " ++ quoted "t1"
      ++ ", " ++ quoted "pkdef" ++ ": []}".

Definition files : list (string * string) :=
  [ ("t1.json", in_order_text); ("swapped.json", swapped_text) ].

Fixpoint lookup {A} (k : string) (l : list (string * A)) : option A :=
  match l with
  | [] => None
  | (k', v) :: l' => if String.eqb k' k then Some v else lookup k l'
  end.

Definition open_read (path : string) : result string :=
  match lookup path files with
  | Some text => Ok text
  | None => Raise (OSError "No such file or directory")
  end.

Definition in_order : dict :=
  [("table_name", PStr "t1"); ("pk", PList []); ("pkdef", PList [])].

Definition swapped : dict :=
  [("pk", PList []); ("table_name", PStr "t1"); ("pkdef", PList [])].

(** The decoder, tabulated on the two texts above. *)
Definition json_loads (text : string) : result pyval :=
  match
    lookup text
      [ (in_order_text, PDict in_order); (swapped_text, PDict swapped) ]
  with
  | Some v => Ok v
  | None => Raise (ValueError "Expecting value")
  end.

(** *** Object storage *)

Record s3_world : Type :=
  { existing : list string;        (* buckets of the account *)
    reserved : list string;        (* names the service refuses to create *)
    protected : list string;       (* buckets the service refuses to delete *)
    versions : list S3.ObjectVersion }.

Definition starts_with (prefix : option string) (o : S3.ObjectVersion) : bool :=
  match prefix with
  | None => true
  | Some p => String.prefix p (S3.object_key o)
  end.

Definition s3_remote (c : S3.call) : s3_world -> result (S3.resp c) * s3_world :=
  match c as c0 return s3_world -> result (S3.resp c0) * s3_world with
  | S3.CreateBucket b _ => fun w =>
      if mem b (reserved w)
      then (Raise (ClientError "BucketAlreadyExists"), w)
      else (Ok tt, {| existing := b :: existing w; reserved := reserved w;
                      protected := protected w; versions := versions w |})
  | S3.ListBuckets => fun w => (Ok (existing w), w)
  | S3.LoadBucket b => fun w =>
      (Ok (if mem b (existing w) then Some 0%Z else None), w)
  | S3.LoadVersioning _ => fun w => (Ok (Some "Enabled"), w)
  | S3.ListObjectVersions _ p => fun w =>
      (Ok (filter (starts_with p) (versions w)), w)
  | S3.DeleteObjects _ _ _ => fun w =>
      (Ok tt, {| existing := existing w; reserved := reserved w;
                 protected := protected w; versions := [] |})
  | S3.DeleteBucket b => fun w =>
      if mem b (protected w)
      then (Raise (ClientError "BucketNotEmpty"), w)
      else (Ok tt, {| existing := without b (existing w);
                      reserved := reserved w;
                      protected := protected w; versions := versions w |})
  | S3.UploadFile _ _ _ => fun w => (Ok tt, w)
  | S3.DownloadFile _ _ _ => fun w => (Ok tt, w)
  | S3.EnableVersioning _ => fun w => (Ok tt, w)
  | S3.WaitUntilNotExists _ => fun w => (Ok tt, w)
  end.

Definition joinpath_name (dest key : string) : string := dest ++ key.

(** An account with three buckets, one of which cannot be deleted, and a
    name that cannot be created. *)
Definition account : s3_world :=
  {| existing := ["logs"; "media"; "backup"];
     reserved := ["taken"];
     protected := ["media"];
     versions :=
       [ {| S3.object_key := "a.txt"; S3.version_id := "v1" |};
         {| S3.object_key := "a.txt"; S3.version_id := "v2" |};
         {| S3.object_key := "tmp/b.txt"; S3.version_id := "v1" |} ] |}.

(** *** Notifications and logs: services answering with a fixed page *)

Definition sns_page : dict :=
  [("Topics", PList [PDict [("TopicArn", PStr "arn:aws:sns:t1")]]);
   ("NextToken", PStr "page2")].

Definition sns_remote (m : SNS.api) (p : dict) (w : unit) : result dict * unit :=
  (Ok sns_page, w).

(** A service whose answers carry none of the expected keys. *)
Definition bare_remote (m : SNS.api) (p : dict) (w : unit) : result dict * unit :=
  (Ok [("ResponseMetadata", PDict [])], w).

Definition logs_page : dict :=
  [("logGroups", PList [PStr "g1"]); ("logStreams", PList [PStr "s1"]);
   ("events", PList []); ("nextToken", PStr "more")].

Definition logs_remote (c : CWLogs.call) (w : unit) : result dict * unit :=
  (Ok logs_page, w).

(** The same object storage, except that waiting for a deletion times out:
    the waiter's error is not a provider error. *)
Definition slow_remote (c : S3.call) : s3_world -> result (S3.resp c) * s3_world :=
  match c as c0 return s3_world -> result (S3.resp c0) * s3_world with
  | S3.WaitUntilNotExists _ => fun w => (Raise (OtherError "WaiterError"), w)
  | S3.CreateBucket b l => s3_remote (S3.CreateBucket b l)
  | S3.ListBuckets => s3_remote S3.ListBuckets
  | S3.LoadBucket b => s3_remote (S3.LoadBucket b)
  | S3.UploadFile b k f => s3_remote (S3.UploadFile b k f)
  | S3.DownloadFile b p f => s3_remote (S3.DownloadFile b p f)
  | S3.EnableVersioning b => s3_remote (S3.EnableVersioning b)
  | S3.LoadVersioning b => s3_remote (S3.LoadVersioning b)
  | S3.ListObjectVersions b p => s3_remote (S3.ListObjectVersions b p)
  | S3.DeleteObjects b o q => s3_remote (S3.DeleteObjects b o q)
  | S3.DeleteBucket b => s3_remote (S3.DeleteBucket b)
  end.

(** *** Temporary files: a fixed random name, and a disk that accepts *)

Definition temp_remote (c : Tempfile.call) (w : unit)
  : result (Tempfile.resp c) * unit :=
  match c as c0 return result (Tempfile.resp c0) * unit with
  | Tempfile.Uuid4Hex => (Ok "0f8c", w)
  | Tempfile.WriteFile _ _ => (Ok tt, w)
  end.

(** *** Table store: the names of the tables that exist *)

Definition table_name_of (params : dict) : string :=
  match dict_get params "TableName" PNone with
  | PStr n => n
  | _ => EmptyString
  end.

Definition dynamo_remote (c : Dynamo.call) (w : list string)
  : result pyval * list string :=
  match c with
  | Dynamo.CreateTable params =>
      if mem (table_name_of params) w
      then (Raise (ClientError "ResourceInUseException"), w)
      else (Ok (PStr (table_name_of params)), table_name_of params :: w)
  | Dynamo.WaitTableExists _ => (Ok PNone, w)
  | Dynamo.TableDelete t =>
      if mem t w then (Ok PNone, without t w)
      else (Raise (ClientError "ResourceNotFoundException"), w)
  | Dynamo.TableWaitUntilNotExists _ => (Ok PNone, w)
  end.

(** *** Printing: a rendering that only tells dictionaries and lists apart *)

Definition repr_dict (d : dict) : string := "{...}".

Definition repr_val (v : pyval) : string :=
  match v with
  | PList _ => "[...]"
  | PDict _ => "{...}"
  | _ => "..."
  end.

End Fake.

(** ** Vocabulary of the statements *)

(** The outcome of a remote call is a normal return or a provider error. *)
Definition ok_or_provider_error {A} (r : result A) : Prop :=
  match r with
  | Ok _ => True
  | Raise (ClientError _) => True
  | Raise _ => False
  end.

(** The buckets whose deletion went through: the wait that follows the
    delete returned. *)
Fixpoint deleted_without_error (t : list (event S3.call)) : list string :=
  match t with
  | [] => []
  | Remote (S3.WaitUntilNotExists b) None :: t' => b :: deleted_without_error t'
  | _ :: t' => deleted_without_error t'
  end.

(** The buckets a trace tried to delete, in order. *)
Fixpoint delete_attempts (t : list (event S3.call)) : list string :=
  match t with
  | [] => []
  | Remote (S3.DeleteBucket b) _ :: t' => b :: delete_attempts t'
  | _ :: t' => delete_attempts t'
  end.

(** The batched delete calls of a trace. *)
Fixpoint batched_deletes (t : list (event S3.call))
  : list (string * list (string * string) * bool) :=
  match t with
  | [] => []
  | Remote (S3.DeleteObjects b objs q) _ :: t' => (b, objs, q) :: batched_deletes t'
  | _ :: t' => batched_deletes t'
  end.

Definition is_create (c : S3.call) : bool :=
  match c with S3.CreateBucket _ _ => true | _ => false end.

Definition is_load (c : S3.call) : bool :=
  match c with S3.LoadBucket _ => true | _ => false end.

(** A computation lets provider errors through: whenever one of its remote
    calls outside the sites [caught] raised a provider error, that error is
    the outcome of the computation. *)
Definition propagates {C W A} (caught : C -> bool) (m : M C W A) : Prop :=
  forall w c msg,
    In (Remote c (Some (ClientError msg))) (trace (m w)) ->
    caught c = false ->
    outcome (m w) = Raise (ClientError msg).

(** A computation calls the service at the sites [caught] only. *)
Definition calls_only {C W A} (caught : C -> bool) (m : M C W A) : Prop :=
  forall w c f, In (Remote c f) (trace (m w)) -> caught c = true.

(** The call sites whose provider errors the script handles itself: the
    create call of [create_bucket], wherever it is reached from, and the
    delete and the wait inside the loop of [delete_buckets]. *)
Definition caught_site (i : S3.invocation) (c : S3.call) : bool :=
  match c with
  | S3.CreateBucket _ _ => true
  | S3.DeleteBucket _ | S3.WaitUntilNotExists _ =>
      match i with
      | S3.CallDeleteBuckets n => negb (truthy n)
      | _ => false
      end
  | _ => false
  end.

(** The pagination parameters of the two listing operations. *)
Definition pagination (next_token : option string) : dict :=
  match next_token with
  | Some (String a r) => [("NextToken", PStr (String a r))]
  | _ => []
  end.

(** The single call each log operation makes, with the parameters the
    operation builds. *)
Definition groups_call (group_name region_name : option string) : CWLogs.call :=
  {| CWLogs.region_name := region_name;
     CWLogs.method := CWLogs.describe_log_groups;
     CWLogs.params :=
       if truthy group_name
       then [("logGroupNamePrefix", opt_to_py group_name)] else [] |}.

Definition streams_call (group_name : string)
    (stream_name region_name : option string) : CWLogs.call :=
  {| CWLogs.region_name := region_name;
     CWLogs.method := CWLogs.describe_log_streams;
     CWLogs.params :=
       let params :=
         if truthy (Some group_name)
         then [("logGroupName", PStr group_name)] else [] in
       if truthy stream_name
       then dict_set params "logStreamNamePrefix" (opt_to_py stream_name)
       else params |}.

Definition events_call (group_name filter_pat : string)
    (start stop region_name : option string) : CWLogs.call :=
  {| CWLogs.region_name := region_name;
     CWLogs.method := CWLogs.filter_log_events_api;
     CWLogs.params :=
       let params :=
         [("logGroupName", PStr group_name); ("filterPattern", PStr filter_pat)] in
       let params :=
         if truthy start then dict_set params "startTime" (opt_to_py start)
         else params in
       if truthy stop then dict_set params "endTime" (opt_to_py stop)
       else params |}.

(** The result of indexing the answer of one call. *)
Definition indexed {W} (remote : CWLogs.call -> W -> result dict * W)
    (c : CWLogs.call) (key : string) (w : W) : result pyval :=
  match fst (remote c w) with
  | Ok res => dict_index res key
  | Raise e => Raise e
  end.


(** What a trace printed, in order. *)
Fixpoint printed {C} (t : list (event C)) : list string :=
  match t with
  | [] => []
  | Stdout m :: t' => m :: printed t'
  | _ :: t' => printed t'
  end.

(** An exception other than a provider error. *)
Definition not_provider_error (e : exn) : Prop :=
  match e with
  | ClientError _ => False
  | _ => True
  end.

(** * Properties *)

Unset Implicit Arguments.

Arguments S3.get_bucket : simpl never.

(** ** Lists of keys, optional strings, traces *)

Lemma list_eqb_eq (l1 l2 : list string) : list_eqb l1 l2 = true <-> l1 = l2.
Proof.
  revert l2; induction l1 as [|a l1 IH]; intros [|b l2]; simpl;
    try (split; (reflexivity || discriminate)).
  rewrite andb_true_iff, String.eqb_eq, IH.
  split; [intros [-> ->]; reflexivity | intros E; injection E; auto].
Qed.

Lemma truthy_pagination (s : option string) :
  (if truthy s then [("NextToken", opt_to_py s)] else []) = pagination s.
Proof. destruct s as [[|a r]|]; reflexivity. Qed.

Lemma dict_get_absent (d : dict) (k : string) (default : pyval) :
  ~ In k (keys d) -> dict_get d k default = default.
Proof.
  induction d as [|[k' v] d IH]; simpl; intros H; [reflexivity|].
  destruct (String.eqb_spec k' k) as [E|E]; [tauto|].
  apply IH; tauto.
Qed.

Lemma dict_index_absent (d : dict) (k : string) :
  ~ In k (keys d) -> dict_index d k = Raise (KeyError k).
Proof.
  induction d as [|[k' v] d IH]; simpl; intros H; [reflexivity|].
  destruct (String.eqb_spec k' k) as [E|E]; [tauto|].
  apply IH; tauto.
Qed.

Lemma dict_index_get (d : dict) (k : string) (v default : pyval) :
  dict_index d k = Ok v -> dict_get d k default = v.
Proof.
  induction d as [|[k' x] d IH]; simpl; [discriminate|].
  destruct (String.eqb k' k); [congruence | exact IH].
Qed.

Lemma calls_app {C} (t1 t2 : list (event C)) :
  calls (t1 ++ t2) = (calls t1 ++ calls t2)%list.
Proof.
  induction t1 as [|[c f|l m|m] t1 IH]; simpl; rewrite ?IH; reflexivity.
Qed.

Lemma logs_app {C} (t1 t2 : list (event C)) :
  logs (t1 ++ t2) = (logs t1 ++ logs t2)%list.
Proof.
  induction t1 as [|[c f|l m|m] t1 IH]; simpl; rewrite ?IH; reflexivity.
Qed.

(** ** dynamo_manager.py: the table definition *)

Section TableDefinition.
Variable open_read : string -> result string.
Variable json_loads : string -> result pyval.

Abbreviation parse := (Dynamo.parse_tabledef open_read json_loads).

(** A definition whose keys come in the order of [require_keys] is accepted
    and handed back as it was decoded. *)
Lemma parse_tabledef_in_order (conf_file text : string) (a b c : pyval) :
  open_read conf_file = Ok text ->
  json_loads text = Ok (PDict [("table_name", a); ("pk", b); ("pkdef", c)]) ->
  parse conf_file = Ok (PDict [("table_name", a); ("pk", b); ("pkdef", c)]).
Proof.
  intros Hf Hj. unfold Dynamo.parse_tabledef. rewrite Hf, Hj. reflexivity.
Qed.

(** The test is on the list of keys: an object is accepted exactly when its
    keys are the required ones in the required order. *)
Lemma parse_tabledef_accepts_iff (conf_file text : string) (d : dict) :
  open_read conf_file = Ok text ->
  json_loads text = Ok (PDict d) ->
  (keys d = Dynamo.require_keys /\ parse conf_file = Ok (PDict d)) \/
  (keys d <> Dynamo.require_keys /\
   parse conf_file = Raise (KeyError "Invalid configuration.")).
Proof.
  intros Hf Hj. unfold Dynamo.parse_tabledef. rewrite Hf, Hj. cbn [Dynamo.conf_keys].
  destruct (list_eqb Dynamo.require_keys (keys d)) eqn:E.
  - left. apply list_eqb_eq in E. split; [symmetry; exact E | reflexivity].
  - right. split; [|reflexivity]. intros K.
    rewrite K in E. assert (T : list_eqb Dynamo.require_keys Dynamo.require_keys = true)
      by (apply list_eqb_eq; reflexivity).
    congruence.
Qed.

(** An object with a required key missing, or with a key that is not
    required, is refused with the configuration error. *)
Lemma parse_tabledef_wrong_key_set (conf_file text : string) (d : dict) :
  open_read conf_file = Ok text ->
  json_loads text = Ok (PDict d) ->
  ~ Dynamo.has_exactly_required_keys d ->
  parse conf_file = Raise (KeyError "Invalid configuration.").
Proof.
  intros Hf Hj Hk.
  destruct (parse_tabledef_accepts_iff conf_file text d Hf Hj) as [[K _]|[_ R]]; [|exact R].
  exfalso. apply Hk. intros k. rewrite K. tauto.
Qed.
End TableDefinition.

(** C1. The claim promises that every definition file whose object has
    exactly the keys table_name, pk and pkdef is parsed and returned.  The
    file [swapped.json] holds such an object, with pk written before
    table_name, and [parse_tabledef] refuses it with the configuration
    error: the comparison is between key lists, so it depends on the order
    in which the file spells the keys. *)
Theorem parse_tabledef_refuses_reordered_keys :
  Fake.open_read "swapped.json" = Ok Fake.swapped_text /\
  Fake.json_loads Fake.swapped_text = Ok (PDict Fake.swapped) /\
  keys Fake.swapped = ["pk"; "table_name"; "pkdef"] /\
  Dynamo.has_exactly_required_keys Fake.swapped /\
  Dynamo.parse_tabledef Fake.open_read Fake.json_loads "swapped.json"
  = Raise (KeyError "Invalid configuration.").
Proof.
  repeat split; try reflexivity; simpl; intuition.
Qed.

(** ** s3_manager.py: what one run of each building block looks like *)

Section ObjectStorage.
Variable W : Type.
Variable remote : forall c : S3.call, W -> result (S3.resp c) * W.

Abbreviation warning_absent name :=
  (Log (C := S3.call) Warning ("Bucket " ++ name ++ " does not exist!")).

Lemma sdk_run (c : S3.call) (w : W) :
  S3.sdk remote c w
  = (fst (remote c w), snd (remote c w),
     [Remote c (failure_of (fst (remote c w)))]).
Proof. unfold S3.sdk. destruct (remote c w); reflexivity. Qed.

(** [create_bucket] makes one call; a provider error becomes a log record
    and [False], any other exception goes through. *)
Lemma create_bucket_run (name : string) (region : option string) (w : W) :
  S3.create_bucket remote name region w
  = match remote (S3.CreateBucket name (or_else region "us-east-2")) w with
    | (Ok _, w1) =>
        (Ok true, w1,
         [Remote (S3.CreateBucket name (or_else region "us-east-2")) None])
    | (Raise (ClientError err), w1) =>
        (Ok false, w1,
         [Remote (S3.CreateBucket name (or_else region "us-east-2"))
            (Some (ClientError err));
          Log Error (err ++ " - Params "
                       ++ S3.repr_params name (or_else region "us-east-2"))])
    | (Raise e, w1) =>
        (Raise e, w1,
         [Remote (S3.CreateBucket name (or_else region "us-east-2")) (Some e)])
    end.
Proof.
  unfold S3.create_bucket, try_except_ClientError, bind, S3.sdk, ret, log.
  destruct (remote (S3.CreateBucket name (or_else region "us-east-2")) w)
    as [[u|[]] w1]; reflexivity.
Qed.

(** A level of [get_bucket] entered without the create flag loads the bucket
    once and does not call itself. *)
Lemma get_bucket_rec_no_create (n : nat) (name : string)
    (region : option string) (w : W) :
  S3.get_bucket_rec remote (S n) name false region w
  = match remote (S3.LoadBucket name) w with
    | (Ok (Some _), w1) =>
        (Ok (Some {| S3.name := name |}), w1, [Remote (S3.LoadBucket name) None])
    | (Ok None, w1) =>
        (Ok None, w1, [Remote (S3.LoadBucket name) None; warning_absent name])
    | (Raise e, w1) => (Raise e, w1, [Remote (S3.LoadBucket name) (Some e)])
    end.
Proof.
  cbn [S3.get_bucket_rec]. unfold bind, S3.sdk, ret, log.
  destruct (remote (S3.LoadBucket name) w) as [[[d|]|e] w1]; reflexivity.
Qed.

(** A level entered with the create flag, with room for one more level. *)
Lemma get_bucket_rec_create (n : nat) (name : string)
    (region : option string) (w : W) :
  S3.get_bucket_rec remote (S (S n)) name true region w
  = match remote (S3.LoadBucket name) w with
    | (Ok (Some _), w1) =>
        (Ok (Some {| S3.name := name |}), w1, [Remote (S3.LoadBucket name) None])
    | (Ok None, w1) =>
        match S3.create_bucket remote name region w1 with
        | (Ok _, w2, t2) =>
            match S3.get_bucket_rec remote 1 name false None w2 with
            | (r, w3, t3) =>
                (r, w3, Remote (S3.LoadBucket name) None :: (t2 ++ t3)%list)
            end
        | (Raise e, w2, t2) => (Raise e, w2, Remote (S3.LoadBucket name) None :: t2)
        end
    | (Raise e, w1) => (Raise e, w1, [Remote (S3.LoadBucket name) (Some e)])
    end.
Proof.
  change (S3.get_bucket_rec remote (S (S n)) name true region w)
    with ((creation_date <- S3.sdk remote (S3.LoadBucket name) ;;
           match creation_date with
           | Some _ => ret (Some {| S3.name := name |})
           | None =>
               S3.create_bucket remote name region ;;;
               S3.get_bucket_rec remote (S n) name false None
           end) w).
  unfold bind at 1. rewrite sdk_run.
  destruct (remote (S3.LoadBucket name) w) as [[[d|]|e] w1]; try reflexivity.
  cbn [fst snd failure_of]. unfold bind.
  destruct (S3.create_bucket remote name region w1) as [[[b|e] w2] t2];
    [|reflexivity].
  rewrite !get_bucket_rec_no_create.
  destruct (remote (S3.LoadBucket name) w2) as [[[d|]|e] w3]; reflexivity.
Qed.

Lemma get_bucket_rec_two (n : nat) (name : string) (create : bool)
    (region : option string) (w : W) :
  S3.get_bucket_rec remote (S (S n)) name create region w
  = S3.get_bucket_rec remote 2 name create region w.
Proof.
  destruct create.
  - rewrite !get_bucket_rec_create. reflexivity.
  - rewrite !get_bucket_rec_no_create. reflexivity.
Qed.

Lemma get_bucket_two (name : string) (create : bool)
    (region : option string) (w : W) :
  S3.get_bucket remote name create region w
  = S3.get_bucket_rec remote 2 name create region w.
Proof.
  unfold S3.get_bucket, S3.recursion_limit.
  exact (get_bucket_rec_two 998 name create region w).
Qed.

Lemma get_bucket_no_create (name : string) (region : option string) (w : W) :
  S3.get_bucket remote name false region w
  = match remote (S3.LoadBucket name) w with
    | (Ok (Some _), w1) =>
        (Ok (Some {| S3.name := name |}), w1, [Remote (S3.LoadBucket name) None])
    | (Ok None, w1) =>
        (Ok None, w1, [Remote (S3.LoadBucket name) None; warning_absent name])
    | (Raise e, w1) => (Raise e, w1, [Remote (S3.LoadBucket name) (Some e)])
    end.
Proof. rewrite get_bucket_two. apply get_bucket_rec_no_create. Qed.

(** [get_bucket] with the create flag, on a bucket the first load does not
    find: the create call and then the second load. *)
Lemma get_bucket_create_absent (name : string) (region : option string)
    (w w1 : W) :
  remote (S3.LoadBucket name) w = (Ok None, w1) ->
  S3.get_bucket remote name true region w
  = match S3.create_bucket remote name region w1 with
    | (Ok _, w2, t2) =>
        match S3.get_bucket_rec remote 1 name false None w2 with
        | (r, w3, t3) =>
            (r, w3, Remote (S3.LoadBucket name) None :: (t2 ++ t3)%list)
        end
    | (Raise e, w2, t2) => (Raise e, w2, Remote (S3.LoadBucket name) None :: t2)
    end.
Proof.
  intros H. rewrite get_bucket_two, get_bucket_rec_create, H. reflexivity.
Qed.

End ObjectStorage.

(** ** s3_manager.py: [get_bucket] *)

Section GetBucket.
Variable W : Type.
Variable remote : forall c : S3.call, W -> result (S3.resp c) * W.

(** C8. When the service knows no bucket of that name (the load of its
    creation date answers [None]) and the create flag is not given,
    [get_bucket] makes that one call, logs the warning "Bucket <name> does
    not exist!" and returns [None]; it does not raise. *)
Theorem get_bucket_absent_returns_None (name : string)
    (region : option string) (w w1 : W) :
  remote (S3.LoadBucket name) w = (Ok None, w1) ->
  outcome (S3.get_bucket remote name false region w) = Ok None /\
  logs (trace (S3.get_bucket remote name false region w))
  = [(Warning, "Bucket " ++ name ++ " does not exist!")] /\
  calls (trace (S3.get_bucket remote name false region w))
  = [S3.LoadBucket name].
Proof.
  intros H. rewrite get_bucket_no_create, H. repeat split.
Qed.

(** C2, as amended.  On a bucket the service does not know,
    [get_bucket name True] makes exactly one create call and, when that call
    returns or raises a provider error, exactly one further load of the
    bucket after it.  The result is decided by that second load: a handle
    named [name] when the bucket is now there, [None] when it is still
    absent, and the exception of the load if it raised. *)
Theorem get_bucket_create_then_refetch (name : string)
    (region : option string) (w w1 w2 w3 : W)
    (r1 : result unit) (r2 : result (option Z)) :
  remote (S3.LoadBucket name) w = (Ok None, w1) ->
  remote (S3.CreateBucket name (or_else region "us-east-2")) w1 = (r1, w2) ->
  ok_or_provider_error r1 ->
  remote (S3.LoadBucket name) w2 = (r2, w3) ->
  calls (trace (S3.get_bucket remote name true region w))
  = [S3.LoadBucket name;
     S3.CreateBucket name (or_else region "us-east-2");
     S3.LoadBucket name] /\
  outcome (S3.get_bucket remote name true region w)
  = match r2 with
    | Ok (Some _) => Ok (Some {| S3.name := name |})
    | Ok None => Ok None
    | Raise e => Raise e
    end.
Proof.
  intros H0 H1 Hp H2.
  rewrite (get_bucket_create_absent W remote name region w w1 H0).
  rewrite create_bucket_run, H1.
  destruct r1 as [u|[]]; try contradiction;
    rewrite get_bucket_rec_no_create, H2;
    destruct r2 as [[d|]|e]; split; reflexivity.
Qed.

(** C9. The recursion of [get_bucket] stops at depth two for every input:
    - any depth allowance of two or more gives the same run as exactly two,
      so a third level is never entered, and [get_bucket] itself is that run;
    - a level entered without the create flag (as the re-fetch is) only
      loads the bucket: it neither creates nor calls itself;
    - a run loads the bucket at most twice and creates at most once;
    - an exception leaving [get_bucket] is always one raised by a remote
      call, never the recursion limit;
    - if the creation fails with a provider error and the bucket is still
      absent at the re-fetch, the result is [None]. *)
Theorem get_bucket_recursion_depth_two (name : string) (create : bool)
    (region : option string) (w : W) :
  (forall n,
      S3.get_bucket_rec remote (S (S n)) name create region w
      = S3.get_bucket_rec remote 2 name create region w) /\
  S3.get_bucket remote name create region w
  = S3.get_bucket_rec remote 2 name create region w /\
  (forall n region' w',
      calls (trace (S3.get_bucket_rec remote (S n) name false region' w'))
      = [S3.LoadBucket name]) /\
  length (filter is_load (calls (trace (S3.get_bucket remote name create region w)))) <= 2 /\
  length (filter is_create (calls (trace (S3.get_bucket remote name create region w)))) <= 1 /\
  (forall e,
      outcome (S3.get_bucket remote name create region w) = Raise e ->
      exists c, In (Remote c (Some e))
                   (trace (S3.get_bucket remote name create region w))) /\
  (forall w1 w2 w3 err,
      create = true ->
      remote (S3.LoadBucket name) w = (Ok None, w1) ->
      remote (S3.CreateBucket name (or_else region "us-east-2")) w1
      = (Raise (ClientError err), w2) ->
      remote (S3.LoadBucket name) w2 = (Ok None, w3) ->
      outcome (S3.get_bucket remote name create region w) = Ok None).
Proof.
  split; [intros n; apply get_bucket_rec_two|].
  split; [apply get_bucket_two|].
  split.
  { intros n region' w'. rewrite get_bucket_rec_no_create.
    destruct (remote (S3.LoadBucket name) w') as [[[d|]|e] w1]; reflexivity. }
  assert (Shape :
    forall x, x = S3.get_bucket remote name create region w ->
      length (filter is_load (calls (trace x))) <= 2 /\
      length (filter is_create (calls (trace x))) <= 1 /\
      (forall e, outcome x = Raise e -> exists c, In (Remote c (Some e)) (trace x))).
  { intros x ->. rewrite get_bucket_two. destruct create.
    - rewrite get_bucket_rec_create.
      destruct (remote (S3.LoadBucket name) w) as [[[d|]|e] w1].
      + simpl. repeat split; try lia. discriminate.
      + rewrite create_bucket_run.
        destruct (remote (S3.CreateBucket name (or_else region "us-east-2")) w1)
          as [[u|e1] w2].
        * rewrite get_bucket_rec_no_create.
          destruct (remote (S3.LoadBucket name) w2) as [[[d|]|e] w3]; simpl;
            repeat split; try lia; try discriminate.
          intros e' [= <-]. exists (S3.LoadBucket name). auto.
        * destruct e1;
            try (simpl; repeat split; try lia;
                 intros e' [= <-]; eexists; simpl; eauto).
          rewrite get_bucket_rec_no_create.
          destruct (remote (S3.LoadBucket name) w2) as [[[d|]|e] w3]; simpl;
            repeat split; try lia; try discriminate.
          intros e' [= <-]. exists (S3.LoadBucket name). auto 6.
      + simpl. repeat split; try lia.
        intros e' [= <-]. exists (S3.LoadBucket name). auto.
    - rewrite get_bucket_rec_no_create.
      destruct (remote (S3.LoadBucket name) w) as [[[d|]|e] w1]; simpl;
        repeat split; try lia; try discriminate.
      intros e' [= <-]. exists (S3.LoadBucket name). auto. }
  destruct (Shape _ eq_refl) as (L & Cr & Ex).
  repeat split; try assumption.
  intros w1 w2 w3 err -> H0 H1 H2.
  rewrite (get_bucket_create_absent W remote name region w w1 H0).
  rewrite create_bucket_run, H1, get_bucket_rec_no_create, H2. reflexivity.
Qed.

End GetBucket.

(** C8 on the in-memory service: no bucket is called "nope". *)
Lemma get_bucket_absent_returns_None_witness :
  Fake.s3_remote (S3.LoadBucket "nope") Fake.account = (Ok None, Fake.account) /\
  outcome (S3.get_bucket Fake.s3_remote "nope" false None Fake.account) = Ok None /\
  logs (trace (S3.get_bucket Fake.s3_remote "nope" false None Fake.account))
  = [(Warning, "Bucket nope does not exist!")] /\
  calls (trace (S3.get_bucket Fake.s3_remote "nope" false None Fake.account))
  = [S3.LoadBucket "nope"].
Proof.
  split; [reflexivity|].
  apply (get_bucket_absent_returns_None Fake.s3_world Fake.s3_remote "nope" None
           Fake.account Fake.account).
  reflexivity.
Defined.

(** C2 as stated fails: "taken" is absent from the account, the service
    refuses to create it, and [get_bucket "taken" True] returns [None], not
    a handle named "taken". *)
Lemma get_bucket_create_refused_returns_None :
  fst (Fake.s3_remote (S3.LoadBucket "taken") Fake.account) = Ok None /\
  outcome (S3.get_bucket Fake.s3_remote "taken" true None Fake.account) = Ok None /\
  ~ (exists b, outcome (S3.get_bucket Fake.s3_remote "taken" true None Fake.account)
               = Ok (Some b) /\ S3.name b = "taken").
Proof.
  split; [reflexivity|]. split; [vm_compute; reflexivity|].
  intros [b [H _]]. vm_compute in H. discriminate.
Qed.

(** C2 as amended, on the in-memory service: "new" is created and found. *)
Lemma get_bucket_create_then_refetch_witness :
  calls (trace (S3.get_bucket Fake.s3_remote "new" true None Fake.account))
  = [S3.LoadBucket "new"; S3.CreateBucket "new" "us-east-2"; S3.LoadBucket "new"] /\
  outcome (S3.get_bucket Fake.s3_remote "new" true None Fake.account)
  = Ok (Some {| S3.name := "new" |}).
Proof.
  apply (get_bucket_create_then_refetch Fake.s3_world Fake.s3_remote "new" None
           Fake.account Fake.account
           (snd (Fake.s3_remote (S3.CreateBucket "new" "us-east-2") Fake.account))
           (snd (Fake.s3_remote (S3.CreateBucket "new" "us-east-2") Fake.account))
           (Ok tt) (Ok (Some 0%Z)));
    [reflexivity | reflexivity | exact I | reflexivity].
Defined.

(** C9 on the in-memory service: the creation of "taken" is refused, the
    re-fetch finds nothing, and the result is [None]. *)
Lemma get_bucket_recursion_depth_two_witness :
  outcome (S3.get_bucket Fake.s3_remote "taken" true None Fake.account) = Ok None.
Proof.
  refine (proj2 (proj2 (proj2 (proj2 (proj2 (proj2
    (get_bucket_recursion_depth_two Fake.s3_world Fake.s3_remote "taken" true None
       Fake.account))))))
    Fake.account Fake.account Fake.account "BucketAlreadyExists" _ _ _ _);
    reflexivity.
Defined.

(** ** s3_manager.py: deleting object versions and buckets *)

Lemma deleted_without_error_app (t1 t2 : list (event S3.call)) :
  deleted_without_error (t1 ++ t2)
  = (deleted_without_error t1 ++ deleted_without_error t2)%list.
Proof.
  induction t1 as [|[[] [e|]|l m|m] t1 IH]; simpl; rewrite ?IH; reflexivity.
Qed.

Lemma delete_attempts_app (t1 t2 : list (event S3.call)) :
  delete_attempts (t1 ++ t2) = (delete_attempts t1 ++ delete_attempts t2)%list.
Proof.
  induction t1 as [|[[] f|l m|m] t1 IH]; simpl; rewrite ?IH; reflexivity.
Qed.

Section DeleteOperations.
Variable W : Type.
Variable remote : forall c : S3.call, W -> result (S3.resp c) * W.

Abbreviation targets_of objs :=
  (map (fun obj => (S3.object_key obj, S3.version_id obj)) objs).

(** C3. On an existing bucket whose listing (restricted to the key prefix
    when one is given) yields N object versions, N <= 1000, and whose
    batched delete goes through, [delete_bucket_objects] makes exactly one
    batched delete call, with the N (key, version id) pairs of the listing
    as its targets, and returns N. *)
Theorem delete_bucket_objects_one_batch (bucket_name : string)
    (key_prefix : option string) (w w1 w2 w3 : W) (d : Z)
    (objs : list S3.ObjectVersion) :
  remote (S3.LoadBucket bucket_name) w = (Ok (Some d), w1) ->
  remote (S3.ListObjectVersions bucket_name
            (if truthy key_prefix then key_prefix else None)) w1
  = (Ok objs, w2) ->
  length objs <= 1000 ->
  remote (S3.DeleteObjects bucket_name (targets_of objs) true) w2 = (Ok tt, w3) ->
  batched_deletes (trace (S3.delete_bucket_objects remote bucket_name key_prefix w))
  = [(bucket_name, targets_of objs, true)] /\
  length (targets_of objs) = length objs /\
  outcome (S3.delete_bucket_objects remote bucket_name key_prefix w)
  = Ok (length objs).
Proof.
  intros H0 H1 _ H2.
  assert (E : S3.delete_bucket_objects remote bucket_name key_prefix w
              = (Ok (length (targets_of objs)), w3,
                 [Remote (S3.LoadBucket bucket_name) None;
                  Remote (S3.ListObjectVersions bucket_name
                            (if truthy key_prefix then key_prefix else None)) None;
                  Remote (S3.DeleteObjects bucket_name (targets_of objs) true) None])).
  { unfold S3.delete_bucket_objects.
    unfold bind at 1. rewrite get_bucket_no_create, H0.
    unfold bind at 1. cbn [S3.attr ret S3.name].
    unfold bind at 1.
    assert (L : (if truthy key_prefix
                 then S3.sdk remote (S3.ListObjectVersions bucket_name key_prefix)
                 else S3.sdk remote (S3.ListObjectVersions bucket_name None)) w1
                = (Ok objs, w2,
                   [Remote (S3.ListObjectVersions bucket_name
                              (if truthy key_prefix then key_prefix else None)) None])).
    { destruct (truthy key_prefix); rewrite sdk_run, H1; reflexivity. }
    rewrite L. unfold bind at 1. rewrite sdk_run, H2. reflexivity. }
  rewrite E. cbn. rewrite length_map. auto.
Qed.

(** One turn of the loop of [delete_buckets]. *)
Lemma delete_each_step (b : string) (rest : list string) (count : nat) (w : W) :
  S3.delete_each remote (b :: rest) count w
  = match remote (S3.DeleteBucket b) w with
    | (Ok _, w1) =>
        match remote (S3.WaitUntilNotExists b) w1 with
        | (Ok _, w2) =>
            match S3.delete_each remote rest (S count) w2 with
            | (r, w3, t) =>
                (r, w3,
                 Remote (S3.DeleteBucket b) None
                   :: Remote (S3.WaitUntilNotExists b) None :: t)
            end
        | (Raise (ClientError err), w2) =>
            match S3.delete_each remote rest count w2 with
            | (r, w3, t) =>
                (r, w3,
                 Remote (S3.DeleteBucket b) None
                   :: Remote (S3.WaitUntilNotExists b) (Some (ClientError err))
                   :: Log Warning ("Bucket " ++ b ++ ": " ++ err) :: t)
            end
        | (Raise e, w2) =>
            (Raise e, w2,
             [Remote (S3.DeleteBucket b) None;
              Remote (S3.WaitUntilNotExists b) (Some e)])
        end
    | (Raise (ClientError err), w1) =>
        match S3.delete_each remote rest count w1 with
        | (r, w3, t) =>
            (r, w3,
             Remote (S3.DeleteBucket b) (Some (ClientError err))
               :: Log Warning ("Bucket " ++ b ++ ": " ++ err) :: t)
        end
    | (Raise e, w1) => (Raise e, w1, [Remote (S3.DeleteBucket b) (Some e)])
    end.
Proof.
  cbn [S3.delete_each].
  unfold bind, try_except_ClientError, S3.sdk, ret, log.
  destruct (remote (S3.DeleteBucket b) w) as [[u|[]] w1]; try reflexivity.
  destruct (remote (S3.WaitUntilNotExists b) w1) as [[u'|[]] w2]; reflexivity.
Qed.

(** The loop, when deletions and waits fail with provider errors only: it
    runs to the end, tries every bucket in turn, counts the buckets whose
    deletion went through and logs one warning for each of the others. *)
Lemma delete_each_best_effort (buckets : list string) :
  (forall b w',
      ok_or_provider_error (fst (remote (S3.DeleteBucket b) w')) /\
      ok_or_provider_error (fst (remote (S3.WaitUntilNotExists b) w'))) ->
  forall count w,
    outcome (S3.delete_each remote buckets count w)
    = Ok (count + length (deleted_without_error
                            (trace (S3.delete_each remote buckets count w)))) /\
    delete_attempts (trace (S3.delete_each remote buckets count w)) = buckets /\
    length (deleted_without_error (trace (S3.delete_each remote buckets count w)))
    + length (logs (trace (S3.delete_each remote buckets count w)))
    = length buckets /\
    Forall (fun l => exists b err,
                In b buckets /\ l = (Warning, "Bucket " ++ b ++ ": " ++ err))
           (logs (trace (S3.delete_each remote buckets count w))).
Proof.
  intros Hp. induction buckets as [|b rest IH]; intros count w.
  - cbn. repeat split; auto.
  - rewrite delete_each_step.
    assert (Weaken : forall t : list (level * string),
      Forall (fun l => exists b0 err,
                  In b0 rest /\ l = (Warning, "Bucket " ++ b0 ++ ": " ++ err)) t ->
      Forall (fun l => exists b0 err,
                  In b0 (b :: rest) /\ l = (Warning, "Bucket " ++ b0 ++ ": " ++ err)) t).
    { intros t. apply Forall_impl. intros l (b0 & err & Hin & ->).
      exists b0, err. split; [right; exact Hin | reflexivity]. }
    pose proof (proj1 (Hp b w)) as Hd.
    destruct (remote (S3.DeleteBucket b) w) as [[u|e] w1]; cbn [fst] in Hd.
    + pose proof (proj2 (Hp b w1)) as Hw.
      destruct (remote (S3.WaitUntilNotExists b) w1) as [[u'|e] w2]; cbn [fst] in Hw.
      * specialize (IH (S count) w2).
        destruct (S3.delete_each remote rest (S count) w2) as [[r w3] t].
        cbn in *. destruct IH as (-> & -> & IH3 & IH4).
        repeat split; auto; f_equal; lia.
      * destruct e; try contradiction.
        specialize (IH count w2).
        destruct (S3.delete_each remote rest count w2) as [[r w3] t].
        cbn in *. destruct IH as (-> & -> & IH3 & IH4).
        repeat split; auto; try lia.
        constructor; [exists b, msg; auto | auto].
    + destruct e; try contradiction.
      specialize (IH count w1).
      destruct (S3.delete_each remote rest count w1) as [[r w3] t].
      cbn in *. destruct IH as (-> & -> & IH3 & IH4).
      repeat split; auto; try lia.
      constructor; [exists b, msg; auto | auto].
Qed.

(** C4. [delete_buckets] without a name, when the listing of the account
    gives [buckets] and deletions and waits fail with provider errors only:
    the call returns (no such error is raised), a delete is attempted for
    every bucket of the account in turn, each bucket is either counted or
    reported in one warning naming it, and the returned count is the number
    of buckets deleted without error. *)
Theorem delete_buckets_all_best_effort (buckets : list string) (w w1 : W) :
  remote S3.ListBuckets w = (Ok buckets, w1) ->
  (forall b w',
      ok_or_provider_error (fst (remote (S3.DeleteBucket b) w')) /\
      ok_or_provider_error (fst (remote (S3.WaitUntilNotExists b) w'))) ->
  outcome (S3.delete_buckets remote None w)
  = Ok (length (deleted_without_error (trace (S3.delete_buckets remote None w)))) /\
  delete_attempts (trace (S3.delete_buckets remote None w)) = buckets /\
  length (deleted_without_error (trace (S3.delete_buckets remote None w)))
  + length (logs (trace (S3.delete_buckets remote None w)))
  = length buckets /\
  Forall (fun l => exists b err,
              In b buckets /\ l = (Warning, "Bucket " ++ b ++ ": " ++ err))
         (logs (trace (S3.delete_buckets remote None w))).
Proof.
  intros Hl Hp.
  unfold S3.delete_buckets. cbn [truthy]. unfold bind.
  rewrite sdk_run, Hl. cbn [fst snd failure_of].
  pose proof (delete_each_best_effort buckets Hp 0 w1) as H.
  destruct (S3.delete_each remote buckets 0 w1) as [[r w2] t].
  cbn in *. exact H.
Qed.

End DeleteOperations.

(** C3 on the in-memory service: the three versions held by "logs". *)
Lemma delete_bucket_objects_one_batch_witness :
  batched_deletes (trace (S3.delete_bucket_objects Fake.s3_remote "logs" None Fake.account))
  = [("logs", [("a.txt", "v1"); ("a.txt", "v2"); ("tmp/b.txt", "v1")], true)] /\
  outcome (S3.delete_bucket_objects Fake.s3_remote "logs" None Fake.account) = Ok 3.
Proof.
  pose proof
    (delete_bucket_objects_one_batch Fake.s3_world Fake.s3_remote "logs" None
       Fake.account Fake.account Fake.account
       (snd (Fake.s3_remote (S3.DeleteObjects "logs" [] true) Fake.account))
       0%Z (Fake.versions Fake.account)) as H.
  split; apply H; try reflexivity; simpl; lia.
Defined.

(** C4 on the in-memory service: "media" cannot be deleted, the other two
    buckets of the account are. *)
Lemma delete_buckets_all_best_effort_witness :
  outcome (S3.delete_buckets Fake.s3_remote None Fake.account) = Ok 2 /\
  delete_attempts (trace (S3.delete_buckets Fake.s3_remote None Fake.account))
  = ["logs"; "media"; "backup"] /\
  logs (trace (S3.delete_buckets Fake.s3_remote None Fake.account))
  = [(Warning, "Bucket media: BucketNotEmpty")].
Proof.
  assert (P : forall b w',
    ok_or_provider_error (fst (Fake.s3_remote (S3.DeleteBucket b) w')) /\
    ok_or_provider_error (fst (Fake.s3_remote (S3.WaitUntilNotExists b) w'))).
  { intros b w'. simpl. destruct (Fake.mem b (Fake.protected w')); simpl; auto. }
  pose proof
    (delete_buckets_all_best_effort Fake.s3_world Fake.s3_remote
       ["logs"; "media"; "backup"] Fake.account Fake.account eq_refl P) as H.
  split; [exact (proj1 H)|].
  split; [exact (proj1 (proj2 H)) | reflexivity].
Defined.

(** ** Which provider errors get through

    The two predicates [propagates] and [calls_only] follow the structure
    of a computation, so every operation is handled by going through its
    text. *)

Section Propagation.
Variables (C W : Type).
Variable caught : C -> bool.

Lemma propagates_ret {A} (a : A) : propagates caught (ret (C := C) (W := W) a).
Proof. intros w c msg []. Qed.

Lemma propagates_raise {A} (e : exn) :
  propagates caught (raise (C := C) (W := W) (A := A) e).
Proof. intros w c msg []. Qed.

Lemma propagates_log (l : level) (m : string) :
  propagates caught (log (C := C) (W := W) l m).
Proof. intros w c msg [H|[]]. discriminate. Qed.

Lemma propagates_print (m : string) :
  propagates caught (print (C := C) (W := W) m).
Proof. intros w c msg [H|[]]. discriminate. Qed.

Lemma propagates_bind {A B} (m : M C W A) (f : A -> M C W B) :
  propagates caught m ->
  (forall a, propagates caught (f a)) ->
  propagates caught (bind m f).
Proof.
  intros Hm Hf w c msg. specialize (Hm w c msg). unfold bind.
  destruct (m w) as [[[a|e] w1] t1]; cbn in *.
  - specialize (Hf a w1 c msg).
    destruct (f a w1) as [[r w2] t2]; cbn in *.
    intros Hin Hc. apply in_app_or in Hin. destruct Hin as [Hin|Hin].
    + specialize (Hm Hin Hc). discriminate.
    + auto.
  - intros Hin Hc. specialize (Hm Hin Hc). congruence.
Qed.

Lemma calls_only_ret {A} (a : A) : calls_only caught (ret (C := C) (W := W) a).
Proof. intros w c f []. Qed.

Lemma calls_only_bind {A B} (m : M C W A) (f : A -> M C W B) :
  calls_only caught m ->
  (forall a, calls_only caught (f a)) ->
  calls_only caught (bind m f).
Proof.
  intros Hm Hf w c fl. specialize (Hm w c fl). unfold bind.
  destruct (m w) as [[[a|e] w1] t1]; cbn in *.
  - specialize (Hf a w1 c fl).
    destruct (f a w1) as [[r w2] t2]; cbn in *.
    intros Hin. apply in_app_or in Hin. tauto.
  - exact Hm.
Qed.

(** A [try] block whose calls are all at caught sites lets nothing else
    through than what its handler does. *)
Lemma propagates_try {A} (m : M C W A) (h : string -> M C W A) :
  calls_only caught m ->
  (forall err, propagates caught (h err)) ->
  propagates caught (try_except_ClientError m h).
Proof.
  intros Hm Hh w c msg. unfold try_except_ClientError.
  specialize (Hm w c (Some (ClientError msg))).
  destruct (m w) as [[[a|e] w1] t1]; cbn in *.
  - intros Hin Hc. rewrite (Hm Hin) in Hc. discriminate.
  - assert (Other : In (Remote c (Some (ClientError msg))) t1 ->
                    caught c = false -> False).
    { intros Hin Hc. rewrite (Hm Hin) in Hc. discriminate. }
    destruct e; cbn; try (intros Hin Hc; destruct (Other Hin Hc)).
    specialize (Hh msg0 w1 c msg).
    destruct (h msg0 w1) as [[r w2] t2]; cbn in *.
    intros Hin Hc. apply in_app_or in Hin. destruct Hin as [Hin|Hin].
    + destruct (Other Hin Hc).
    + auto.
Qed.
End Propagation.

Section ObjectStoragePropagation.
Variable W : Type.
Variable remote : forall c : S3.call, W -> result (S3.resp c) * W.
Variable joinpath_name : string -> string -> string.
Variable caught : S3.call -> bool.
Hypothesis create_is_caught : forall b l, caught (S3.CreateBucket b l) = true.

Lemma propagates_sdk (c : S3.call) : propagates caught (S3.sdk remote c).
Proof.
  intros w c' msg. rewrite sdk_run. cbn.
  intros [H|[]] _. injection H as <- H.
  destruct (fst (remote c w)); cbn in H; congruence.
Qed.

Lemma calls_only_sdk (c : S3.call) :
  caught c = true -> calls_only caught (S3.sdk remote c).
Proof.
  intros Hc w c' f. rewrite sdk_run. cbn.
  intros [H|[]]. injection H as <- _. exact Hc.
Qed.

Lemma propagates_create_bucket (name : string) (region : option string) :
  propagates caught (S3.create_bucket remote name region).
Proof.
  apply propagates_try.
  - apply calls_only_bind; [apply calls_only_sdk, create_is_caught|].
    intros _. apply calls_only_ret.
  - intros err. apply propagates_bind; [apply propagates_log|].
    intros _. apply propagates_ret.
Qed.

Lemma propagates_get_bucket_rec (depth : nat) :
  forall name create region,
    propagates caught (S3.get_bucket_rec remote depth name create region).
Proof.
  induction depth as [|depth IH]; intros name create region.
  - apply propagates_raise.
  - cbn [S3.get_bucket_rec].
    apply propagates_bind; [apply propagates_sdk|].
    intros [d|]; [apply propagates_ret|].
    destruct create.
    + apply propagates_bind; [apply propagates_create_bucket|].
      intros _. apply IH.
    + apply propagates_bind; [apply propagates_log|].
      intros _. apply propagates_ret.
Qed.

Lemma propagates_get_bucket (name : string) (create : bool)
    (region : option string) :
  propagates caught (S3.get_bucket remote name create region).
Proof. apply propagates_get_bucket_rec. Qed.

Lemma propagates_attr (bucket : option S3.Bucket) (a : string) :
  propagates caught (S3.attr (W := W) bucket a).
Proof. destruct bucket; [apply propagates_ret | apply propagates_raise]. Qed.

Lemma propagates_print_each (buckets : list string) :
  forall count, propagates caught (S3.print_each (W := W) buckets count).
Proof.
  induction buckets as [|b rest IH]; intros count; cbn [S3.print_each].
  - apply propagates_ret.
  - apply propagates_bind; [apply propagates_print | intros _; apply IH].
Qed.

Lemma propagates_discard {A} (m : M S3.call W A) :
  propagates caught m -> propagates caught (S3.discard m).
Proof.
  intros H. apply propagates_bind; [exact H | intros _; apply propagates_ret].
Qed.
End ObjectStoragePropagation.

Section ObjectStorageFailurePolicy.
Variable W : Type.
Variable remote : forall c : S3.call, W -> result (S3.resp c) * W.
Variable joinpath_name : string -> string -> string.

Lemma propagates_delete_each (caught : S3.call -> bool) (buckets : list string) :
  (forall b, caught (S3.DeleteBucket b) = true) ->
  (forall b, caught (S3.WaitUntilNotExists b) = true) ->
  forall count, propagates caught (S3.delete_each remote buckets count).
Proof.
  intros Hd Hw. induction buckets as [|b rest IH]; intros count;
    cbn [S3.delete_each].
  - apply propagates_ret.
  - apply propagates_bind; [|intros count'; apply IH].
    apply propagates_try.
    + apply calls_only_bind; [apply calls_only_sdk, Hd|]. intros _.
      apply calls_only_bind; [apply calls_only_sdk, Hw|]. intros _.
      apply calls_only_ret.
    + intros err. apply propagates_bind; [apply propagates_log|].
      intros _. apply propagates_ret.
Qed.

Lemma propagates_invoke (i : S3.invocation) :
  propagates (caught_site i) (S3.invoke remote joinpath_name i).
Proof.
  assert (Cr : forall b l, caught_site i (S3.CreateBucket b l) = true)
    by reflexivity.
  pose proof (propagates_get_bucket W remote (caught_site i) Cr) as G.
  pose proof (propagates_sdk W remote (caught_site i)) as S.
  pose proof (propagates_attr W (caught_site i)) as At.
  destruct i; cbn [S3.invoke].
  - apply propagates_discard, propagates_create_bucket, Cr.
  - unfold S3.list_buckets.
    apply propagates_bind; [apply S|]. intros bs.
    apply propagates_bind; [apply propagates_print_each|]. intros n.
    apply propagates_print.
  - apply propagates_discard, G.
  - apply propagates_discard. unfold S3.create_bucket_object.
    apply propagates_bind; [apply G|]. intros bucket.
    apply propagates_bind; [apply At|]. intros b.
    apply propagates_bind; [apply S|]. intros _. apply propagates_ret.
  - apply propagates_discard. unfold S3.get_bucket_object.
    apply propagates_bind; [apply G|]. intros bucket.
    apply propagates_bind; [apply At|]. intros b.
    apply propagates_bind; [apply S|]. intros _. apply propagates_ret.
  - apply propagates_discard. unfold S3.enable_bucket_versioning.
    apply propagates_bind; [apply G|]. intros bucket.
    apply propagates_bind; [apply At|]. intros b.
    apply propagates_bind; [apply S|]. intros _. apply S.
  - apply propagates_discard. unfold S3.delete_bucket_objects.
    apply propagates_bind; [apply G|]. intros bucket.
    apply propagates_bind; [apply At|]. intros b.
    apply propagates_bind; [destruct (truthy key_prefix); exact (S _)|].
    intros objects.
    apply propagates_bind; [apply S|]. intros _. apply propagates_ret.
  - apply propagates_discard. unfold S3.delete_buckets.
    destruct (truthy name) eqn:T.
    + apply propagates_bind; [apply G|]. intros [b|]; [|apply propagates_ret].
      apply propagates_bind; [apply S|]. intros _.
      apply propagates_bind; [apply S|]. intros _. apply propagates_ret.
    + apply propagates_bind; [apply S|]. intros bs.
      apply propagates_delete_each; intros b; cbn; rewrite T; reflexivity.
Qed.

(** C5, as amended.  Provider errors are handled at two places and nowhere
    else.
    - [create_bucket] makes one create call; it returns [True] when the call
      succeeds, and logs the error and returns [False] when the call raises
      a provider error.
    - The loop of [delete_buckets] without a name handles the provider
      errors of each bucket's delete and wait: with such failures only, the
      operation returns a count.
    - Whatever the operation and its arguments, a provider error raised by
      any other remote call (that is, outside the create call and outside
      that loop) is the outcome of the operation: it leaves uncaught. *)
Theorem provider_errors_caught_at_two_sites :
  (forall name region w,
      calls (trace (S3.create_bucket remote name region w))
      = [S3.CreateBucket name (or_else region "us-east-2")] /\
      match fst (remote (S3.CreateBucket name (or_else region "us-east-2")) w) with
      | Ok _ =>
          outcome (S3.create_bucket remote name region w) = Ok true /\
          logs (trace (S3.create_bucket remote name region w)) = []
      | Raise (ClientError err) =>
          outcome (S3.create_bucket remote name region w) = Ok false /\
          logs (trace (S3.create_bucket remote name region w))
          = [(Error, err ++ " - Params "
                       ++ S3.repr_params name (or_else region "us-east-2"))]
      | Raise e => outcome (S3.create_bucket remote name region w) = Raise e
      end) /\
  (forall buckets w w1,
      remote S3.ListBuckets w = (Ok buckets, w1) ->
      (forall b w',
          ok_or_provider_error (fst (remote (S3.DeleteBucket b) w')) /\
          ok_or_provider_error (fst (remote (S3.WaitUntilNotExists b) w'))) ->
      exists count,
        outcome (S3.invoke remote joinpath_name (S3.CallDeleteBuckets None) w)
        = Ok tt /\
        outcome (S3.delete_buckets remote None w) = Ok count) /\
  (forall i w c msg,
      In (Remote c (Some (ClientError msg)))
         (trace (S3.invoke remote joinpath_name i w)) ->
      caught_site i c = false ->
      outcome (S3.invoke remote joinpath_name i w) = Raise (ClientError msg)).
Proof.
  split; [|split].
  - intros name region w. rewrite create_bucket_run.
    destruct (remote (S3.CreateBucket name (or_else region "us-east-2")) w)
      as [[u|[]] w1]; cbn; auto.
  - intros buckets w w1 Hl Hp.
    cbn [S3.invoke]. unfold S3.discard, S3.delete_buckets.
    cbn [truthy]. unfold bind.
    rewrite sdk_run, Hl. cbn [fst snd failure_of].
    pose proof (proj1 (delete_each_best_effort W remote buckets Hp 0 w1)) as H.
    destruct (S3.delete_each remote buckets 0 w1) as [[r w2] t].
    cbn in H. subst r. cbn. eexists. split; reflexivity.
  - intros i. exact (propagates_invoke i).
Qed.

End ObjectStorageFailurePolicy.

(** C5 as stated fails: [delete_buckets], which is not [create_bucket], met
    a provider error on the delete of "media" and returned normally. *)
Lemma delete_buckets_swallows_provider_error :
  In (Remote (S3.DeleteBucket "media") (Some (ClientError "BucketNotEmpty")))
     (trace (S3.invoke Fake.s3_remote Fake.joinpath_name
               (S3.CallDeleteBuckets None) Fake.account)) /\
  outcome (S3.invoke Fake.s3_remote Fake.joinpath_name
             (S3.CallDeleteBuckets None) Fake.account) = Ok tt /\
  outcome (S3.delete_buckets Fake.s3_remote None Fake.account) = Ok 2.
Proof.
  split; [|split]; vm_compute; auto 10.
Qed.

(** C5 as amended, on the in-memory service: with a name, [delete_buckets]
    does not handle the refusal of the delete, and the error leaves. *)
Lemma provider_errors_caught_at_two_sites_witness :
  outcome (S3.invoke Fake.s3_remote Fake.joinpath_name
             (S3.CallDeleteBuckets (Some "media")) Fake.account)
  = Raise (ClientError "BucketNotEmpty").
Proof.
  apply (proj2 (proj2 (provider_errors_caught_at_two_sites
                         Fake.s3_world Fake.s3_remote Fake.joinpath_name))
           (S3.CallDeleteBuckets (Some "media")) Fake.account
           (S3.DeleteBucket "media") "BucketNotEmpty").
  - vm_compute. auto.
  - reflexivity.
Defined.

(** ** sns_manager.py: the two listings *)

Section Notifications.
Variable W : Type.
Variable remote : SNS.api -> dict -> W -> result dict * W.

Lemma list_sns_topics_run (next_token : option string) (w : W) :
  SNS.list_sns_topics remote next_token w
  = match remote SNS.list_topics (pagination next_token) w with
    | (Ok topics, w1) =>
        (Ok (dict_get topics "Topics" (PList []), dict_get topics "NextToken" PNone),
         w1, [Remote (SNS.list_topics, pagination next_token) None])
    | (Raise e, w1) =>
        (Raise e, w1, [Remote (SNS.list_topics, pagination next_token) (Some e)])
    end.
Proof.
  unfold SNS.list_sns_topics. rewrite truthy_pagination.
  unfold bind, SNS.sdk, ret.
  destruct (remote SNS.list_topics (pagination next_token) w) as [[res|e] w1];
    reflexivity.
Qed.

Lemma list_sns_subscriptions_run (next_token : option string) (w : W) :
  SNS.list_sns_subscriptions remote next_token w
  = match remote SNS.list_subscriptions (pagination next_token) w with
    | (Ok subs, w1) =>
        (Ok (dict_get subs "Subscriptions" (PList []), dict_get subs "NextToken" PNone),
         w1, [Remote (SNS.list_subscriptions, pagination next_token) None])
    | (Raise e, w1) =>
        (Raise e, w1,
         [Remote (SNS.list_subscriptions, pagination next_token) (Some e)])
    end.
Proof.
  unfold SNS.list_sns_subscriptions. rewrite truthy_pagination.
  unfold bind, SNS.sdk, ret.
  destruct (remote SNS.list_subscriptions (pagination next_token) w)
    as [[res|e] w1]; reflexivity.
Qed.

(** C6, as amended.  [list_sns_topics next_token] makes one [list_topics]
    call.  A non-empty token is sent as it is under [NextToken]; with no
    token, or with the empty one, no pagination parameter is sent.  When the
    call answers, the result is the pair of the response's [Topics] (an
    empty list when absent) and its [NextToken] ([None] when absent). *)
Theorem list_sns_topics_single_page (next_token : option string) (w : W) :
  (forall a r,
      next_token = Some (String a r) ->
      calls (trace (SNS.list_sns_topics remote next_token w))
      = [(SNS.list_topics, [("NextToken", PStr (String a r))])]) /\
  (next_token = None \/ next_token = Some EmptyString ->
   calls (trace (SNS.list_sns_topics remote next_token w))
   = [(SNS.list_topics, [])]) /\
  (forall topics w1,
      remote SNS.list_topics (pagination next_token) w = (Ok topics, w1) ->
      outcome (SNS.list_sns_topics remote next_token w)
      = Ok (dict_get topics "Topics" (PList []),
            dict_get topics "NextToken" PNone)).
Proof.
  rewrite list_sns_topics_run. repeat split.
  - intros a r ->.
    destruct (remote SNS.list_topics _ w) as [[res|e] w1]; reflexivity.
  - intros [-> | ->];
      destruct (remote SNS.list_topics _ w) as [[res|e] w1]; reflexivity.
  - intros topics w1 ->. reflexivity.
Qed.

(** The two listings read the response with a default. *)
Lemma sns_listings_read_with_default (next_token : option string) (w : W) :
  (forall res w1,
      remote SNS.list_topics (pagination next_token) w = (Ok res, w1) ->
      exists topics token,
        outcome (SNS.list_sns_topics remote next_token w) = Ok (topics, token) /\
        (~ In "Topics" (keys res) -> topics = PList []) /\
        (~ In "NextToken" (keys res) -> token = PNone)) /\
  (forall res w1,
      remote SNS.list_subscriptions (pagination next_token) w = (Ok res, w1) ->
      exists subscriptions token,
        outcome (SNS.list_sns_subscriptions remote next_token w)
        = Ok (subscriptions, token) /\
        (~ In "Subscriptions" (keys res) -> subscriptions = PList []) /\
        (~ In "NextToken" (keys res) -> token = PNone)) /\
  (forall e,
      outcome (SNS.list_sns_topics remote next_token w) = Raise e ->
      fst (remote SNS.list_topics (pagination next_token) w) = Raise e) /\
  (forall e,
      outcome (SNS.list_sns_subscriptions remote next_token w) = Raise e ->
      fst (remote SNS.list_subscriptions (pagination next_token) w) = Raise e).
Proof.
  rewrite list_sns_topics_run, list_sns_subscriptions_run. repeat split.
  - intros res w1 ->. do 2 eexists. split; [reflexivity|].
    split; apply dict_get_absent.
  - intros res w1 ->. do 2 eexists. split; [reflexivity|].
    split; apply dict_get_absent.
  - intros e. destruct (remote SNS.list_topics _ w) as [[res|e'] w1]; cbn;
      congruence.
  - intros e. destruct (remote SNS.list_subscriptions _ w) as [[res|e'] w1];
      cbn; congruence.
Qed.
End Notifications.

(** C6 as stated fails: the empty string is a token other than [None], and
    it is not forwarded; the call carries no pagination parameter. *)
Lemma list_sns_topics_empty_token_not_forwarded :
  calls (trace (SNS.list_sns_topics Fake.sns_remote (Some EmptyString) tt))
  = [(SNS.list_topics, [])] /\
  calls (trace (SNS.list_sns_topics Fake.sns_remote (Some EmptyString) tt))
  <> [(SNS.list_topics, [("NextToken", PStr EmptyString)])].
Proof.
  split; [reflexivity | vm_compute; discriminate].
Qed.

(** C6 as amended, on the fixed-page service: the token "page2" is sent. *)
Lemma list_sns_topics_single_page_witness :
  calls (trace (SNS.list_sns_topics Fake.sns_remote (Some "page2") tt))
  = [(SNS.list_topics, [("NextToken", PStr "page2")])] /\
  outcome (SNS.list_sns_topics Fake.sns_remote (Some "page2") tt)
  = Ok (PList [PDict [("TopicArn", PStr "arn:aws:sns:t1")]], PStr "page2").
Proof.
  pose proof (list_sns_topics_single_page unit Fake.sns_remote (Some "page2") tt)
    as (Sent & _ & Page).
  split.
  - exact (Sent _ _ eq_refl).
  - exact (Page Fake.sns_page tt eq_refl).
Defined.

(** ** cwlogs_manager.py: the three read operations *)

Section Logs.
Variable W : Type.
Variable remote : CWLogs.call -> W -> result dict * W.

(** What a single call followed by the indexing [res[key]] amounts to. *)
Lemma sdk_then_index (region : option string) (m : CWLogs.api) (p : dict)
    (key : string) (w : W) :
  (res <- CWLogs.sdk remote region m p ;; lift (dict_index res key)) w
  = let c := {| CWLogs.region_name := region; CWLogs.method := m;
                CWLogs.params := p |} in
    match remote c w with
    | (Ok res, w1) => (dict_index res key, w1, [Remote c None])
    | (Raise e, w1) => (Raise e, w1, [Remote c (Some e)])
    end.
Proof.
  unfold bind, CWLogs.sdk, lift. cbn.
  destruct (remote _ w) as [[res|e] w1]; reflexivity.
Qed.

Lemma list_log_groups_run (group_name region_name : option string) (w : W) :
  calls (trace (CWLogs.list_log_groups remote group_name region_name w))
  = [groups_call group_name region_name] /\
  outcome (CWLogs.list_log_groups remote group_name region_name w)
  = indexed remote (groups_call group_name region_name) "logGroups" w.
Proof.
  unfold CWLogs.list_log_groups. rewrite sdk_then_index.
  unfold indexed, groups_call. cbn zeta.
  destruct (remote _ w) as [[res|e] w1]; split; reflexivity.
Qed.

(** C7.  Each of the three operations makes exactly one remote call and
    returns what that single response holds under its result key
    ([logGroups], [logStreams], [events]); nothing is called again, so a
    continuation token in the response is not followed. *)
Theorem log_operations_single_call (w : W) :
  (forall group_name region_name,
      calls (trace (CWLogs.list_log_groups remote group_name region_name w))
      = [groups_call group_name region_name] /\
      outcome (CWLogs.list_log_groups remote group_name region_name w)
      = indexed remote (groups_call group_name region_name) "logGroups" w) /\
  (forall group_name stream_name region_name,
      calls (trace (CWLogs.list_log_group_streams remote group_name stream_name
                      region_name w))
      = [streams_call group_name stream_name region_name] /\
      outcome (CWLogs.list_log_group_streams remote group_name stream_name
                 region_name w)
      = indexed remote (streams_call group_name stream_name region_name) "logStreams" w) /\
  (forall group_name filter_pat start stop region_name,
      calls (trace (CWLogs.filter_log_events remote group_name filter_pat start
                      stop region_name w))
      = [events_call group_name filter_pat start stop region_name] /\
      outcome (CWLogs.filter_log_events remote group_name filter_pat start stop
                 region_name w)
      = indexed remote (events_call group_name filter_pat start stop region_name)
          "events" w).
Proof.
  split; [|split]; intros.
  - apply list_log_groups_run.
  - unfold CWLogs.list_log_group_streams. cbn zeta. rewrite sdk_then_index.
    unfold indexed, streams_call. cbn zeta.
    destruct (remote _ w) as [[res|e] w1]; split; reflexivity.
  - unfold CWLogs.filter_log_events. cbn zeta. rewrite sdk_then_index.
    unfold indexed, events_call. cbn zeta.
    destruct (remote _ w) as [[res|e] w1]; split; reflexivity.
Qed.

(** The log operations index the response: a missing key is an error. *)
Lemma list_log_groups_missing_key (group_name region_name : option string)
    (w w1 : W) (res : dict) :
  remote (groups_call group_name region_name) w = (Ok res, w1) ->
  ~ In "logGroups" (keys res) ->
  outcome (CWLogs.list_log_groups remote group_name region_name w)
  = Raise (KeyError "logGroups").
Proof.
  intros H K. rewrite (proj2 (list_log_groups_run group_name region_name w)).
  unfold indexed. rewrite H. apply dict_index_absent, K.
Qed.
End Logs.

(** ** Reading a response: with a default, or by index *)

(** C10.  The two listings of sns_manager.py read the response with a
    default: when the call answers with a dictionary [res], whatever its
    keys, the listing returns a pair; a missing [Topics] or [Subscriptions]
    key gives the empty list and a missing [NextToken] gives [None].  The
    only exception a listing can raise is the one the remote call raised,
    so never a key lookup error of its own.  The log operations differ:
    [list_log_groups] indexes the response, and a response without
    [logGroups] makes it raise [KeyError]. *)
Theorem sns_listings_total (W : Type)
    (remote : SNS.api -> dict -> W -> result dict * W)
    (next_token : option string) (w : W) :
  (forall res w1,
      remote SNS.list_topics (pagination next_token) w = (Ok res, w1) ->
      exists topics token,
        outcome (SNS.list_sns_topics remote next_token w) = Ok (topics, token) /\
        (~ In "Topics" (keys res) -> topics = PList []) /\
        (~ In "NextToken" (keys res) -> token = PNone)) /\
  (forall res w1,
      remote SNS.list_subscriptions (pagination next_token) w = (Ok res, w1) ->
      exists subscriptions token,
        outcome (SNS.list_sns_subscriptions remote next_token w)
        = Ok (subscriptions, token) /\
        (~ In "Subscriptions" (keys res) -> subscriptions = PList []) /\
        (~ In "NextToken" (keys res) -> token = PNone)) /\
  (forall e,
      outcome (SNS.list_sns_topics remote next_token w) = Raise e ->
      fst (remote SNS.list_topics (pagination next_token) w) = Raise e) /\
  (forall e,
      outcome (SNS.list_sns_subscriptions remote next_token w) = Raise e ->
      fst (remote SNS.list_subscriptions (pagination next_token) w) = Raise e) /\
  (forall (W' : Type) (logs_remote : CWLogs.call -> W' -> result dict * W')
          group_name region_name w' w1' res,
      logs_remote (groups_call group_name region_name) w' = (Ok res, w1') ->
      ~ In "logGroups" (keys res) ->
      outcome (CWLogs.list_log_groups logs_remote group_name region_name w')
      = Raise (KeyError "logGroups")).
Proof.
  destruct (sns_listings_read_with_default W remote next_token w)
    as (T & S & ET & ES).
  repeat split; try assumption.
  intros W' logs_remote group_name region_name w' w1' res.
  apply list_log_groups_missing_key.
Qed.

(** C10 on a service whose answers carry none of the keys. *)
Lemma sns_listings_total_witness :
  exists topics token,
    outcome (SNS.list_sns_topics Fake.bare_remote None tt) = Ok (topics, token) /\
    topics = PList [] /\ token = PNone.
Proof.
  destruct (proj1 (sns_listings_total unit Fake.bare_remote None tt)
              [("ResponseMetadata", PDict [])] tt eq_refl)
    as (topics & token & H & Ht & Hn).
  exists topics, token. split; [exact H|].
  split; [apply Ht | apply Hn]; simpl; intros [E|[]]; discriminate.
Defined.

(** * Further properties of the scripts *)

(** ** s3_manager.py: buckets that exist, buckets that do not *)

Section BucketPresence.
Variable W : Type.
Variable remote : forall c : S3.call, W -> result (S3.resp c) * W.
Variable joinpath_name : string -> string -> string.

Abbreviation absent_trace name :=
  [Remote (S3.LoadBucket name) None;
   Log (C := S3.call) Warning ("Bucket " ++ name ++ " does not exist!")].

Abbreviation no_attribute a :=
  (AttributeError ("'NoneType' object has no attribute '" ++ a ++ "'")).

(** X1. A bucket the service knows is returned after a single load, and
    nothing is created or logged, whether the create flag is given or not. *)
Theorem get_bucket_existing_never_creates (name : string) (create : bool)
    (region : option string) (w w1 : W) (d : Z) :
  remote (S3.LoadBucket name) w = (Ok (Some d), w1) ->
  S3.get_bucket remote name create region w
  = (Ok (Some {| S3.name := name |}), w1, [Remote (S3.LoadBucket name) None]).
Proof.
  intros H. rewrite get_bucket_two. destruct create.
  - rewrite get_bucket_rec_create, H. reflexivity.
  - rewrite get_bucket_rec_no_create, H. reflexivity.
Qed.

(** X2. On a bucket the service does not know, the four operations that
    work inside a bucket stop with an [AttributeError] on the missing
    handle: the bucket is loaded once, the warning is logged, and no upload,
    download, versioning, listing or delete call is made. *)
Theorem operations_on_missing_bucket (bucket_name : string) (w w1 : W) :
  remote (S3.LoadBucket bucket_name) w = (Ok None, w1) ->
  (forall file_path key_prefix,
      S3.create_bucket_object remote bucket_name file_path key_prefix w
      = (Raise (no_attribute "Object"), w1, absent_trace bucket_name)) /\
  (forall object_key dest version_id,
      S3.get_bucket_object remote joinpath_name bucket_name object_key dest
        version_id w
      = (Raise (no_attribute "Object"), w1, absent_trace bucket_name)) /\
  S3.enable_bucket_versioning remote bucket_name w
  = (Raise (no_attribute "Versioning"), w1, absent_trace bucket_name) /\
  (forall key_prefix,
      S3.delete_bucket_objects remote bucket_name key_prefix w
      = (Raise (no_attribute "object_versions"), w1, absent_trace bucket_name)).
Proof.
  intros H. repeat split; intros;
    unfold S3.create_bucket_object, S3.get_bucket_object,
      S3.enable_bucket_versioning, S3.delete_bucket_objects;
    unfold bind at 1; rewrite get_bucket_no_create, H; reflexivity.
Qed.

(** X3. On an existing bucket, [create_bucket_object] uploads the local file
    under the key made of the prefix (when one is given and not empty)
    immediately followed by the file path, with no separator added, and
    returns the handle of that key. *)
Theorem create_bucket_object_key (bucket_name file_path : string)
    (key_prefix : option string) (w w1 w2 : W) (d : Z) :
  remote (S3.LoadBucket bucket_name) w = (Ok (Some d), w1) ->
  remote (S3.UploadFile bucket_name (or_else key_prefix EmptyString ++ file_path)
            file_path) w1 = (Ok tt, w2) ->
  calls (trace (S3.create_bucket_object remote bucket_name file_path key_prefix w))
  = [S3.LoadBucket bucket_name;
     S3.UploadFile bucket_name (or_else key_prefix EmptyString ++ file_path)
       file_path] /\
  outcome (S3.create_bucket_object remote bucket_name file_path key_prefix w)
  = Ok {| S3.object_bucket := bucket_name;
          S3.object_params :=
            [("key", PStr (or_else key_prefix EmptyString ++ file_path))] |} /\
  (truthy key_prefix = false ->
   or_else key_prefix EmptyString ++ file_path = file_path).
Proof.
  intros H0 H1.
  assert (E : S3.create_bucket_object remote bucket_name file_path key_prefix w
              = (Ok {| S3.object_bucket := bucket_name;
                       S3.object_params :=
                         [("key", PStr (or_else key_prefix EmptyString ++ file_path))] |},
                 w2,
                 [Remote (S3.LoadBucket bucket_name) None;
                  Remote (S3.UploadFile bucket_name
                            (or_else key_prefix EmptyString ++ file_path)
                            file_path) None])).
  { unfold S3.create_bucket_object.
    unfold bind at 1. rewrite get_bucket_no_create, H0.
    unfold bind at 1. cbn [S3.attr ret S3.name].
    unfold bind at 1. rewrite sdk_run, H1. reflexivity. }
  rewrite E. repeat split.
  destruct key_prefix as [[|a r]|]; cbn; intros; (reflexivity || discriminate).
Qed.


End BucketPresence.

(** X1 on the in-memory service: "logs" exists. *)
Lemma get_bucket_existing_never_creates_witness :
  S3.get_bucket Fake.s3_remote "logs" true None Fake.account
  = (Ok (Some {| S3.name := "logs" |}), Fake.account,
     [Remote (S3.LoadBucket "logs") None]).
Proof.
  apply (get_bucket_existing_never_creates Fake.s3_world Fake.s3_remote "logs"
           true None Fake.account Fake.account 0%Z).
  reflexivity.
Defined.

(** X2 on the in-memory service: no bucket is called "nope". *)
Lemma operations_on_missing_bucket_witness :
  outcome (S3.enable_bucket_versioning Fake.s3_remote "nope" Fake.account)
  = Raise (AttributeError "'NoneType' object has no attribute 'Versioning'").
Proof.
  rewrite (proj1 (proj2 (proj2
    (operations_on_missing_bucket Fake.s3_world Fake.s3_remote Fake.joinpath_name
       "nope" Fake.account Fake.account eq_refl)))).
  reflexivity.
Defined.

(** X3 on the in-memory service. *)
Lemma create_bucket_object_key_witness :
  calls (trace (S3.create_bucket_object Fake.s3_remote "logs" "a.txt"
                  (Some "tmp/") Fake.account))
  = [S3.LoadBucket "logs"; S3.UploadFile "logs" "tmp/a.txt" "a.txt"].
Proof.
  apply (create_bucket_object_key Fake.s3_world Fake.s3_remote "logs" "a.txt"
           (Some "tmp/") Fake.account Fake.account Fake.account 0%Z);
    reflexivity.
Defined.


(** ** s3_manager.py: listing, deleting, the command line *)

Lemma printed_app {C} (t1 t2 : list (event C)) :
  printed (t1 ++ t2) = (printed t1 ++ printed t2)%list.
Proof.
  induction t1 as [|[c f|l m|m] t1 IH]; simpl; rewrite ?IH; reflexivity.
Qed.

Section BucketCommands.
Variable W : Type.
Variable remote : forall c : S3.call, W -> result (S3.resp c) * W.
Variable joinpath_name : string -> string -> string.

Abbreviation targets_of objs :=
  (map (fun obj => (S3.object_key obj, S3.version_id obj)) objs).

(** The printing loop of [list_buckets]: one line per bucket, and the
    counter grows by one each time. *)
Lemma print_each_run (buckets : list string) :
  forall count (w : W),
    S3.print_each buckets count w
    = (Ok (count + length buckets), w, map (Stdout (C := S3.call)) buckets).
Proof.
  induction buckets as [|b rest IH]; intros count w; cbn [S3.print_each].
  - cbn. rewrite Nat.add_0_r. reflexivity.
  - unfold bind, print. rewrite IH. cbn. do 3 f_equal. lia.
Qed.

Lemma printed_map_Stdout (l : list string) :
  printed (map (Stdout (C := S3.call)) l) = l.
Proof. induction l as [|a l IH]; simpl; rewrite ?IH; reflexivity. Qed.

(** X5. [list_buckets] prints the name of every bucket of the account, in
    the order of the listing, and then one line "Found N buckets!" where N
    is the number of names printed; it makes the one listing call. *)
Theorem list_buckets_prints_all (buckets : list string) (w w1 : W) :
  remote S3.ListBuckets w = (Ok buckets, w1) ->
  outcome (S3.list_buckets remote w) = Ok tt /\
  calls (trace (S3.list_buckets remote w)) = [S3.ListBuckets] /\
  printed (trace (S3.list_buckets remote w))
  = (buckets ++ [("Found " ++ str_of_nat (length buckets) ++ " buckets!")%string])%list.
Proof.
  intros H.
  assert (E : S3.list_buckets remote w
              = (Ok tt, w1,
                 Remote S3.ListBuckets None
                   :: (map (Stdout (C := S3.call)) buckets
                         ++ [Stdout ("Found " ++ str_of_nat (length buckets)
                                       ++ " buckets!")%string])%list)).
  { unfold S3.list_buckets. unfold bind at 1. rewrite sdk_run, H.
    cbn [fst snd failure_of]. unfold bind at 1. rewrite print_each_run.
    reflexivity. }
  rewrite E. cbn. repeat split.
  - rewrite calls_app. cbn.
    induction buckets as [|b rest IH]; [reflexivity|]. cbn.
    assert (N : forall l : list string,
               calls (map (Stdout (C := S3.call)) l) = []).
    { induction l as [|x l IHl]; [reflexivity | exact IHl]. }
    rewrite N. reflexivity.
  - rewrite printed_app, printed_map_Stdout. reflexivity.
Qed.

(** What [delete_bucket_objects] does on an existing bucket, whatever the
    number of versions listed. *)
Lemma delete_bucket_objects_run (bucket_name : string)
    (key_prefix : option string) (w w1 w2 w3 : W) (d : Z)
    (objs : list S3.ObjectVersion) :
  remote (S3.LoadBucket bucket_name) w = (Ok (Some d), w1) ->
  remote (S3.ListObjectVersions bucket_name
            (if truthy key_prefix then key_prefix else None)) w1
  = (Ok objs, w2) ->
  remote (S3.DeleteObjects bucket_name (targets_of objs) true) w2 = (Ok tt, w3) ->
  S3.delete_bucket_objects remote bucket_name key_prefix w
  = (Ok (length (targets_of objs)), w3,
     [Remote (S3.LoadBucket bucket_name) None;
      Remote (S3.ListObjectVersions bucket_name
                (if truthy key_prefix then key_prefix else None)) None;
      Remote (S3.DeleteObjects bucket_name (targets_of objs) true) None]).
Proof.
  intros H0 H1 H2.
  unfold S3.delete_bucket_objects.
  unfold bind at 1. rewrite get_bucket_no_create, H0.
  unfold bind at 1. cbn [S3.attr ret S3.name].
  unfold bind at 1.
  assert (L : (if truthy key_prefix
               then S3.sdk remote (S3.ListObjectVersions bucket_name key_prefix)
               else S3.sdk remote (S3.ListObjectVersions bucket_name None)) w1
              = (Ok objs, w2,
                 [Remote (S3.ListObjectVersions bucket_name
                            (if truthy key_prefix then key_prefix else None)) None])).
  { destruct (truthy key_prefix); rewrite sdk_run, H1; reflexivity. }
  rewrite L. unfold bind at 1. rewrite sdk_run, H2. reflexivity.
Qed.

(** X6. [delete_bucket_objects] never splits its work: whatever the number
    of versions the listing yields, more than 1000 included, they all go
    into one batched delete call, in the order of the listing and with the
    quiet flag; on an empty listing the call is still made, with no target,
    and the result is 0. *)
Theorem delete_bucket_objects_never_splits (bucket_name : string)
    (key_prefix : option string) (w w1 w2 w3 : W) (d : Z)
    (objs : list S3.ObjectVersion) :
  remote (S3.LoadBucket bucket_name) w = (Ok (Some d), w1) ->
  remote (S3.ListObjectVersions bucket_name
            (if truthy key_prefix then key_prefix else None)) w1
  = (Ok objs, w2) ->
  remote (S3.DeleteObjects bucket_name (targets_of objs) true) w2 = (Ok tt, w3) ->
  batched_deletes (trace (S3.delete_bucket_objects remote bucket_name key_prefix w))
  = [(bucket_name, targets_of objs, true)] /\
  outcome (S3.delete_bucket_objects remote bucket_name key_prefix w)
  = Ok (length objs) /\
  (objs = [] ->
   batched_deletes (trace (S3.delete_bucket_objects remote bucket_name key_prefix w))
   = [(bucket_name, [], true)]).
Proof.
  intros H0 H1 H2.
  rewrite (delete_bucket_objects_run bucket_name key_prefix w w1 w2 w3 d objs
             H0 H1 H2).
  cbn. rewrite length_map. repeat split. intros ->. reflexivity.
Qed.

(** X7. [delete_buckets] with a name: an unknown bucket gives 0, with the
    warning and without any delete call; a known one is deleted, waited
    for, and gives 1; and if its delete raises, whatever the exception, the
    exception leaves and the wait is not made. *)
Theorem delete_buckets_named (name : string) (w w1 : W) :
  truthy (Some name) = true ->
  (remote (S3.LoadBucket name) w = (Ok None, w1) ->
   outcome (S3.delete_buckets remote (Some name) w) = Ok 0 /\
   calls (trace (S3.delete_buckets remote (Some name) w))
   = [S3.LoadBucket name] /\
   logs (trace (S3.delete_buckets remote (Some name) w))
   = [(Warning, "Bucket " ++ name ++ " does not exist!")]) /\
  (forall d w2 w3,
      remote (S3.LoadBucket name) w = (Ok (Some d), w1) ->
      remote (S3.DeleteBucket name) w1 = (Ok tt, w2) ->
      remote (S3.WaitUntilNotExists name) w2 = (Ok tt, w3) ->
      outcome (S3.delete_buckets remote (Some name) w) = Ok 1 /\
      calls (trace (S3.delete_buckets remote (Some name) w))
      = [S3.LoadBucket name; S3.DeleteBucket name;
         S3.WaitUntilNotExists name]) /\
  (forall d e w2,
      remote (S3.LoadBucket name) w = (Ok (Some d), w1) ->
      remote (S3.DeleteBucket name) w1 = (Raise e, w2) ->
      outcome (S3.delete_buckets remote (Some name) w) = Raise e /\
      calls (trace (S3.delete_buckets remote (Some name) w))
      = [S3.LoadBucket name; S3.DeleteBucket name]).
Proof.
  intros T. destruct name as [|a r]; [discriminate|].
  split; [|split].
  - intros H.
    assert (E : S3.delete_buckets remote (Some (String a r)) w
                = (Ok 0, w1,
                   [Remote (S3.LoadBucket (String a r)) None;
                    Log Warning ("Bucket " ++ String a r ++ " does not exist!")])).
    { unfold S3.delete_buckets. cbn [truthy or_else]. unfold bind.
      rewrite get_bucket_no_create, H. reflexivity. }
    rewrite E. repeat split.
  - intros d w2 w3 H0 H1 H2.
    assert (E : S3.delete_buckets remote (Some (String a r)) w
                = (Ok 1, w3,
                   [Remote (S3.LoadBucket (String a r)) None;
                    Remote (S3.DeleteBucket (String a r)) None;
                    Remote (S3.WaitUntilNotExists (String a r)) None])).
    { unfold S3.delete_buckets. cbn [truthy or_else]. unfold bind.
      rewrite get_bucket_no_create, H0. cbn [S3.name].
      rewrite sdk_run, H1. cbn [fst snd]. rewrite sdk_run, H2. reflexivity. }
    rewrite E. repeat split.
  - intros d e w2 H0 H1.
    assert (E : S3.delete_buckets remote (Some (String a r)) w
                = (Raise e, w2,
                   [Remote (S3.LoadBucket (String a r)) None;
                    Remote (S3.DeleteBucket (String a r)) (Some e)])).
    { unfold S3.delete_buckets. cbn [truthy or_else]. unfold bind.
      rewrite get_bucket_no_create, H0. cbn [S3.name].
      rewrite sdk_run, H1. reflexivity. }
    rewrite E. repeat split.
Qed.

(** X8. The empty string counts as no name: [delete_buckets] called with it
    runs exactly as without a name, so it lists the account and, when
    deletions and waits fail with provider errors only, tries to delete
    every bucket. *)
Theorem delete_buckets_empty_name_deletes_all (buckets : list string)
    (w w1 : W) :
  remote S3.ListBuckets w = (Ok buckets, w1) ->
  (forall b w',
      ok_or_provider_error (fst (remote (S3.DeleteBucket b) w')) /\
      ok_or_provider_error (fst (remote (S3.WaitUntilNotExists b) w'))) ->
  S3.delete_buckets remote (Some EmptyString) w = S3.delete_buckets remote None w /\
  delete_attempts (trace (S3.delete_buckets remote (Some EmptyString) w)) = buckets.
Proof.
  intros Hl Hp. split; [reflexivity|].
  unfold S3.delete_buckets. cbn [truthy]. unfold bind.
  rewrite sdk_run, Hl. cbn [fst snd failure_of].
  pose proof (delete_each_best_effort W remote buckets Hp 0 w1) as H.
  destruct (S3.delete_each remote buckets 0 w1) as [[r w2] t].
  cbn in *. apply H.
Qed.

(** X9. The loop of [delete_buckets] handles provider errors only: when the
    delete of a bucket, or the wait after it, raises any other exception,
    that exception ends the operation and the buckets after it are not
    tried. *)
Theorem delete_buckets_stops_on_other_exception (b : string)
    (rest : list string) (e : exn) (w w1 : W) :
  remote S3.ListBuckets w = (Ok (b :: rest), w1) ->
  not_provider_error e ->
  (forall w2,
      remote (S3.DeleteBucket b) w1 = (Raise e, w2) ->
      outcome (S3.delete_buckets remote None w) = Raise e /\
      delete_attempts (trace (S3.delete_buckets remote None w)) = [b] /\
      logs (trace (S3.delete_buckets remote None w)) = []) /\
  (forall w2 w3,
      remote (S3.DeleteBucket b) w1 = (Ok tt, w2) ->
      remote (S3.WaitUntilNotExists b) w2 = (Raise e, w3) ->
      outcome (S3.delete_buckets remote None w) = Raise e /\
      delete_attempts (trace (S3.delete_buckets remote None w)) = [b] /\
      logs (trace (S3.delete_buckets remote None w)) = []).
Proof.
  intros Hl He.
  assert (E : S3.delete_buckets remote None w
              = match S3.delete_each remote (b :: rest) 0 w1 with
                | (r, w2, t) => (r, w2, Remote S3.ListBuckets None :: t)
                end).
  { unfold S3.delete_buckets. cbn [truthy]. unfold bind.
    rewrite sdk_run, Hl. reflexivity. }
  rewrite E, delete_each_step. split.
  - intros w2 H. rewrite H. destruct e; try contradiction; repeat split.
  - intros w2 w3 H1 H2. rewrite H1, H2.
    destruct e; try contradiction; repeat split.
Qed.

(** X10. From the command line, [get_bucket] is always called without the
    create flag: whatever the name, the region and the state of the
    service, the command makes the single load call and never a create
    call.  Without a sub-command the script calls nothing and prints
    nothing. *)
Theorem get_bucket_command_never_creates (name region : string) (w : W) :
  calls (trace (S3.main remote joinpath_name (S3.get_bucket_args name region) w))
  = [S3.LoadBucket name] /\
  S3.main remote joinpath_name S3.no_command w = (Ok tt, w, []).
Proof.
  split; [|reflexivity].
  cbn [S3.main]. unfold S3.discard, bind.
  rewrite get_bucket_no_create.
  destruct (remote (S3.LoadBucket name) w) as [[[d|]|e] w1]; reflexivity.
Qed.

(** X11. [create_bucket] never sends an empty location: a region that is
    given and not empty is used as it is, and otherwise the location is
    'us-east-2'. *)
Theorem create_bucket_location (name : string) (region : option string) (w : W) :
  exists location,
    calls (trace (S3.create_bucket remote name region w))
    = [S3.CreateBucket name location] /\
    location <> EmptyString /\
    (truthy region = true -> region = Some location) /\
    (truthy region = false -> location = "us-east-2").
Proof.
  exists (or_else region "us-east-2"). rewrite create_bucket_run.
  split.
  - destruct (remote (S3.CreateBucket name (or_else region "us-east-2")) w)
      as [[u|[]] w1]; reflexivity.
  - destruct region as [[|a r]|]; cbn; repeat split;
      try discriminate; try reflexivity.
Qed.

End BucketCommands.

(** X5 on the in-memory service. *)
Lemma list_buckets_prints_all_witness :
  printed (trace (S3.list_buckets Fake.s3_remote Fake.account))
  = ["logs"; "media"; "backup"; "Found 3 buckets!"].
Proof.
  apply (list_buckets_prints_all Fake.s3_world Fake.s3_remote
           ["logs"; "media"; "backup"] Fake.account Fake.account).
  reflexivity.
Defined.

(** X6 on the in-memory service: a prefix that matches nothing. *)
Lemma delete_bucket_objects_never_splits_witness :
  batched_deletes
    (trace (S3.delete_bucket_objects Fake.s3_remote "logs" (Some "zzz") Fake.account))
  = [("logs", [], true)] /\
  outcome (S3.delete_bucket_objects Fake.s3_remote "logs" (Some "zzz") Fake.account)
  = Ok 0.
Proof.
  pose proof
    (delete_bucket_objects_never_splits Fake.s3_world Fake.s3_remote "logs"
       (Some "zzz") Fake.account Fake.account Fake.account
       (snd (Fake.s3_remote (S3.DeleteObjects "logs" [] true) Fake.account))
       0%Z [] eq_refl eq_refl eq_refl) as H.
  split; [exact (proj1 H) | exact (proj1 (proj2 H))].
Defined.

(** X7 on the in-memory service: "media" exists and cannot be deleted. *)
Lemma delete_buckets_named_witness :
  outcome (S3.delete_buckets Fake.s3_remote (Some "media") Fake.account)
  = Raise (ClientError "BucketNotEmpty") /\
  outcome (S3.delete_buckets Fake.s3_remote (Some "nope") Fake.account) = Ok 0.
Proof.
  split.
  - apply (proj2 (proj2 (delete_buckets_named Fake.s3_world Fake.s3_remote
                           "media" Fake.account Fake.account eq_refl))
             0%Z (ClientError "BucketNotEmpty") Fake.account);
      reflexivity.
  - apply (proj1 (delete_buckets_named Fake.s3_world Fake.s3_remote
                    "nope" Fake.account Fake.account eq_refl)).
    reflexivity.
Defined.

Lemma fake_deletes_fail_with_provider_errors (b : string) (w' : Fake.s3_world) :
  ok_or_provider_error (fst (Fake.s3_remote (S3.DeleteBucket b) w')) /\
  ok_or_provider_error (fst (Fake.s3_remote (S3.WaitUntilNotExists b) w')).
Proof. simpl. destruct (Fake.mem b (Fake.protected w')); simpl; auto. Qed.

(** X8 on the in-memory service. *)
Lemma delete_buckets_empty_name_deletes_all_witness :
  delete_attempts
    (trace (S3.delete_buckets Fake.s3_remote (Some EmptyString) Fake.account))
  = ["logs"; "media"; "backup"].
Proof.
  apply (delete_buckets_empty_name_deletes_all Fake.s3_world Fake.s3_remote
           ["logs"; "media"; "backup"] Fake.account Fake.account eq_refl
           fake_deletes_fail_with_provider_errors).
Defined.

(** X9 on an object storage whose waits time out: the first wait ends the
    run, and the two other buckets are not tried. *)
Lemma delete_buckets_stops_on_other_exception_witness :
  outcome (S3.delete_buckets Fake.slow_remote None Fake.account)
  = Raise (OtherError "WaiterError") /\
  delete_attempts (trace (S3.delete_buckets Fake.slow_remote None Fake.account))
  = ["logs"] /\
  logs (trace (S3.delete_buckets Fake.slow_remote None Fake.account)) = [].
Proof.
  apply (proj2 (delete_buckets_stops_on_other_exception Fake.s3_world
                  Fake.slow_remote "logs" ["media"; "backup"]
                  (OtherError "WaiterError") Fake.account Fake.account
                  eq_refl I)
           (snd (Fake.s3_remote (S3.DeleteBucket "logs") Fake.account))
           (snd (Fake.s3_remote (S3.DeleteBucket "logs") Fake.account)));
    reflexivity.
Defined.

(** ** s3_manager.py: [create_tempfile] *)

Lemma length_string_app (s1 s2 : string) :
  String.length (s1 ++ s2) = String.length s1 + String.length s2.
Proof. induction s1 as [|a s1 IH]; simpl; [reflexivity | rewrite IH; reflexivity]. Qed.

Lemma length_repeat_string (s : string) (n : nat) :
  String.length (Tempfile.repeat_string s n) = String.length s * n.
Proof.
  induction n as [|n IH]; simpl.
  - lia.
  - rewrite length_string_app, IH. lia.
Qed.

Section TemporaryFile.
Variable W : Type.
Variable remote : forall c : Tempfile.call, W -> result (Tempfile.resp c) * W.

(** X12. [create_tempfile] writes one file, named after [file_name] with
    ".txt" added, or after a fresh random name when [file_name] is missing
    or empty (the random name is asked for in that case only).  The text
    written is [content] (or "0") repeated [size] times: its length is the
    length of that unit times [size], and it is empty when [size] is zero
    or negative.  The name of the file is the result. *)
Theorem create_tempfile_writes_repeated_content
    (file_name content : option string) (size : Z) (w : W) :
  let text := Tempfile.repeat_string (or_else content "0") (Z.to_nat size) in
  (forall name w1,
      file_name = Some name -> truthy file_name = true ->
      remote (Tempfile.WriteFile (name ++ ".txt") text) w = (Ok tt, w1) ->
      Tempfile.create_tempfile remote file_name content size w
      = (Ok (name ++ ".txt"), w1,
         [Remote (Tempfile.WriteFile (name ++ ".txt") text) None])) /\
  (forall hex w1 w2,
      truthy file_name = false ->
      remote Tempfile.Uuid4Hex w = (Ok hex, w1) ->
      remote (Tempfile.WriteFile (hex ++ ".txt") text) w1 = (Ok tt, w2) ->
      Tempfile.create_tempfile remote file_name content size w
      = (Ok (hex ++ ".txt"), w2,
         [Remote Tempfile.Uuid4Hex None;
          Remote (Tempfile.WriteFile (hex ++ ".txt") text) None])) /\
  String.length text = String.length (or_else content "0") * Z.to_nat size /\
  ((size <= 0)%Z -> text = EmptyString).
Proof.
  intros text. repeat split.
  - intros name w1 -> T H. destruct name as [|a r]; [discriminate|].
    unfold Tempfile.create_tempfile. cbn [truthy or_else].
    unfold bind, ret, Tempfile.sdk. fold text. rewrite H. reflexivity.
  - intros hex w1 w2 T H1 H2.
    unfold Tempfile.create_tempfile. rewrite T.
    unfold bind, ret, Tempfile.sdk. rewrite H1. fold text. rewrite H2.
    reflexivity.
  - apply length_repeat_string.
  - intros Hs. unfold text.
    replace (Z.to_nat size) with 0 by lia. reflexivity.
Qed.
End TemporaryFile.

(** X12 on a disk that accepts: the default file of 300 zeros. *)
Lemma create_tempfile_writes_repeated_content_witness :
  outcome (Tempfile.create_tempfile Fake.temp_remote None None 300 tt)
  = Ok "0f8c.txt".
Proof.
  pose proof
    (proj1 (proj2 (create_tempfile_writes_repeated_content unit Fake.temp_remote
                     None None 300 tt))
       "0f8c" tt tt eq_refl eq_refl eq_refl) as H.
  rewrite H. reflexivity.
Defined.

(** ** sns_manager.py: the operations that change something *)

Section NotificationOperations.
Variable W : Type.
Variable remote : SNS.api -> dict -> W -> result dict * W.
Variable repr : dict -> string.

(** X13. [list_sns_subscriptions] pages like [list_sns_topics]: one
    [list_subscriptions] call, carrying the token under [NextToken] when it
    is not empty and no pagination parameter otherwise, and the result is
    the response's [Subscriptions] and [NextToken]. *)
Theorem list_sns_subscriptions_single_page (next_token : option string) (w : W) :
  (forall a r,
      next_token = Some (String a r) ->
      calls (trace (SNS.list_sns_subscriptions remote next_token w))
      = [(SNS.list_subscriptions, [("NextToken", PStr (String a r))])]) /\
  (next_token = None \/ next_token = Some EmptyString ->
   calls (trace (SNS.list_sns_subscriptions remote next_token w))
   = [(SNS.list_subscriptions, [])]) /\
  (forall subscriptions w1,
      remote SNS.list_subscriptions (pagination next_token) w
      = (Ok subscriptions, w1) ->
      outcome (SNS.list_sns_subscriptions remote next_token w)
      = Ok (dict_get subscriptions "Subscriptions" (PList []),
            dict_get subscriptions "NextToken" PNone)).
Proof.
  rewrite list_sns_subscriptions_run. repeat split.
  - intros a r ->.
    destruct (remote SNS.list_subscriptions _ w) as [[res|e] w1]; reflexivity.
  - intros [-> | ->];
      destruct (remote SNS.list_subscriptions _ w) as [[res|e] w1]; reflexivity.
  - intros subscriptions w1 ->. reflexivity.
Qed.

(** The result of an operation that returns [True] after its call. *)
Abbreviation true_after r :=
  (match r with
   | Ok _ => Ok true
   | Raise e => Raise e
   end).

(** What an operation that prints the response shows. *)
Abbreviation shown r :=
  (match r with
   | Ok res => [repr res]
   | Raise _ => []
   end).

(** X14. None of the five operations that change something handles an
    exception: each makes exactly one call with the parameters built from
    its arguments, returns [True] when the call returns and raises what the
    call raised otherwise.  The three that print show the response of a
    successful call, and nothing after a failed one.  [subscribe_sns_topic]
    always subscribes with the protocol 'sms'. *)
Theorem sns_operations_single_call (w : W) :
  (forall topic_name,
      calls (trace (SNS.create_sns_topic remote topic_name w))
      = [(SNS.create_topic, [("Name", PStr topic_name)])] /\
      outcome (SNS.create_sns_topic remote topic_name w)
      = true_after (fst (remote SNS.create_topic [("Name", PStr topic_name)] w))) /\
  (forall topic_arn mobile_number,
      let params := [("TopicArn", PStr topic_arn); ("Protocol", PStr "sms");
                     ("Endpoint", PStr mobile_number)] in
      calls (trace (SNS.subscribe_sns_topic remote repr topic_arn mobile_number w))
      = [(SNS.subscribe, params)] /\
      outcome (SNS.subscribe_sns_topic remote repr topic_arn mobile_number w)
      = true_after (fst (remote SNS.subscribe params w)) /\
      printed (trace (SNS.subscribe_sns_topic remote repr topic_arn mobile_number w))
      = shown (fst (remote SNS.subscribe params w))) /\
  (forall topic_arn message,
      let params := [("TopicArn", PStr topic_arn); ("Message", PStr message)] in
      calls (trace (SNS.send_sns_message remote repr topic_arn message w))
      = [(SNS.publish, params)] /\
      outcome (SNS.send_sns_message remote repr topic_arn message w)
      = true_after (fst (remote SNS.publish params w)) /\
      printed (trace (SNS.send_sns_message remote repr topic_arn message w))
      = shown (fst (remote SNS.publish params w))) /\
  (forall subscription_arn,
      let params := [("SubscriptionArn", PStr subscription_arn)] in
      calls (trace (SNS.unsubscribe_sns_topic remote repr subscription_arn w))
      = [(SNS.unsubscribe, params)] /\
      outcome (SNS.unsubscribe_sns_topic remote repr subscription_arn w)
      = true_after (fst (remote SNS.unsubscribe params w)) /\
      printed (trace (SNS.unsubscribe_sns_topic remote repr subscription_arn w))
      = shown (fst (remote SNS.unsubscribe params w))) /\
  (forall topic_arn,
      calls (trace (SNS.delete_sns_topic remote topic_arn w))
      = [(SNS.delete_topic, [("TopicArn", PStr topic_arn)])] /\
      outcome (SNS.delete_sns_topic remote topic_arn w)
      = true_after (fst (remote SNS.delete_topic [("TopicArn", PStr topic_arn)] w))).
Proof.
  repeat split; intros;
    unfold SNS.create_sns_topic, SNS.subscribe_sns_topic, SNS.send_sns_message,
      SNS.unsubscribe_sns_topic, SNS.delete_sns_topic, bind, SNS.sdk, print, ret;
    cbn zeta;
    destruct (remote _ _ w) as [[res|e] w1]; reflexivity.
Qed.
End NotificationOperations.

(** X13 on the fixed-page service. *)
Lemma list_sns_subscriptions_single_page_witness :
  calls (trace (SNS.list_sns_subscriptions Fake.sns_remote (Some "page2") tt))
  = [(SNS.list_subscriptions, [("NextToken", PStr "page2")])] /\
  calls (trace (SNS.list_sns_subscriptions Fake.sns_remote (Some EmptyString) tt))
  = [(SNS.list_subscriptions, [])].
Proof.
  split.
  - exact (proj1 (list_sns_subscriptions_single_page unit Fake.sns_remote
                    (Some "page2") tt) _ _ eq_refl).
  - exact (proj1 (proj2 (list_sns_subscriptions_single_page unit Fake.sns_remote
                           (Some EmptyString) tt)) (or_intror eq_refl)).
Defined.

(** ** cwlogs_manager.py: parameters and command line *)

Lemma or_else_Some_empty (s : string) : or_else (Some s) EmptyString = s.
Proof. destruct s; reflexivity. Qed.

Section LogCommands.
Variable W : Type.
Variable remote : CWLogs.call -> W -> result dict * W.
Variable repr : pyval -> string.

Lemma list_log_group_streams_run (group_name : string)
    (stream_name region_name : option string) (w : W) :
  CWLogs.list_log_group_streams remote group_name stream_name region_name w
  = match remote (streams_call group_name stream_name region_name) w with
    | (Ok res, w1) =>
        (dict_index res "logStreams", w1,
         [Remote (streams_call group_name stream_name region_name) None])
    | (Raise e, w1) =>
        (Raise e, w1,
         [Remote (streams_call group_name stream_name region_name) (Some e)])
    end.
Proof.
  unfold CWLogs.list_log_group_streams. cbn zeta. rewrite sdk_then_index.
  reflexivity.
Qed.

Lemma filter_log_events_run (group_name filter_pat : string)
    (start stop region_name : option string) (w : W) :
  CWLogs.filter_log_events remote group_name filter_pat start stop region_name w
  = match remote (events_call group_name filter_pat start stop region_name) w with
    | (Ok res, w1) =>
        (dict_index res "events", w1,
         [Remote (events_call group_name filter_pat start stop region_name) None])
    | (Raise e, w1) =>
        (Raise e, w1,
         [Remote (events_call group_name filter_pat start stop region_name)
            (Some e)])
    end.
Proof.
  unfold CWLogs.filter_log_events. cbn zeta. rewrite sdk_then_index.
  reflexivity.
Qed.

(** What a parameter dictionary holds under a key, for an optional
    argument: the argument when it is given and not empty, nothing
    otherwise. *)
Abbreviation when_given arg key :=
  (match arg with
   | Some (String a r) => Ok (PStr (String a r))
   | _ => Raise (KeyError key)
   end).

(** X15. The one call of [filter_log_events] always carries the group name
    and the filter pattern, as given, even when they are empty; it carries
    [startTime] exactly when [start] is given and not empty, and [endTime]
    exactly when [stop] is; it carries nothing else, and it goes to the
    client of the region given. *)
Theorem filter_log_events_parameters (group_name filter_pat : string)
    (start stop region_name : option string) (w : W) :
  exists p,
    calls (trace (CWLogs.filter_log_events remote group_name filter_pat start
                    stop region_name w))
    = [{| CWLogs.region_name := region_name;
          CWLogs.method := CWLogs.filter_log_events_api;
          CWLogs.params := p |}] /\
    dict_index p "logGroupName" = Ok (PStr group_name) /\
    dict_index p "filterPattern" = Ok (PStr filter_pat) /\
    dict_index p "startTime" = when_given start "startTime" /\
    dict_index p "endTime" = when_given stop "endTime" /\
    length p = 2 + (if truthy start then 1 else 0) + (if truthy stop then 1 else 0).
Proof.
  exists (CWLogs.params (events_call group_name filter_pat start stop region_name)).
  rewrite filter_log_events_run. split.
  - destruct (remote _ w) as [[res|e] w1]; reflexivity.
  - destruct start as [[|a r]|], stop as [[|a' r']|]; repeat split.
Qed.

(** X16. The two listings send a parameter only for an argument that is
    given and not empty.  [list_log_groups] sends [logGroupNamePrefix] or
    nothing at all.  [list_log_group_streams] sends [logGroupName] unless
    the group name is empty, and [logStreamNamePrefix] when a stream name
    is given; with an empty group name and no stream name it sends no
    parameter. *)
Theorem log_listing_parameters (w : W) :
  (forall group_name region_name,
      calls (trace (CWLogs.list_log_groups remote group_name region_name w))
      = [{| CWLogs.region_name := region_name;
            CWLogs.method := CWLogs.describe_log_groups;
            CWLogs.params :=
              match group_name with
              | Some (String a r) => [("logGroupNamePrefix", PStr (String a r))]
              | _ => []
              end |}]) /\
  (forall group_name stream_name region_name,
      exists p,
        calls (trace (CWLogs.list_log_group_streams remote group_name
                        stream_name region_name w))
        = [{| CWLogs.region_name := region_name;
              CWLogs.method := CWLogs.describe_log_streams;
              CWLogs.params := p |}] /\
        dict_index p "logGroupName" = when_given (Some group_name) "logGroupName" /\
        dict_index p "logStreamNamePrefix"
        = when_given stream_name "logStreamNamePrefix" /\
        (group_name = EmptyString -> truthy stream_name = false -> p = [])).
Proof.
  split.
  - intros group_name region_name.
    rewrite (proj1 (list_log_groups_run W remote group_name region_name w)).
    destruct group_name as [[|a r]|]; reflexivity.
  - intros group_name stream_name region_name.
    exists (CWLogs.params (streams_call group_name stream_name region_name)).
    rewrite list_log_group_streams_run. split.
    + destruct (remote _ w) as [[res|e] w1]; reflexivity.
    + destruct group_name as [|a r], stream_name as [[|a' r']|]; repeat split;
        intros; discriminate.
Qed.

(** X17. The command [list_log_groups] cannot succeed: its parser declares
    the option [--region], the script reads [args.region_name], and the
    namespace has no such attribute.  Whatever the values given, the script
    stops with [AttributeError] before any call and prints nothing. *)
Theorem list_log_groups_command_fails (group_name region : option string) (w : W) :
  CWLogs.main remote repr
    (CWLogs.parsed "list_log_groups" [group_name; region]) w
  = (Raise (AttributeError "'Namespace' object has no attribute 'region_name'"),
     w, []).
Proof. reflexivity. Qed.

(** X18. The two other commands reach their operation with the values of
    the namespace.  [list_log_group_streams] prints the list it gets, once;
    [filter_log_events] makes its call and prints nothing, whatever the
    response.  Without a sub-command the script does nothing. *)
Theorem log_commands_output (w : W) :
  (forall group_name stream_name region_name,
      calls (trace (CWLogs.main remote repr
                      (CWLogs.parsed "list_log_group_streams"
                         [Some group_name; stream_name; region_name]) w))
      = [streams_call group_name stream_name region_name] /\
      (forall res w1 streams,
          remote (streams_call group_name stream_name region_name) w
          = (Ok res, w1) ->
          dict_index res "logStreams" = Ok streams ->
          printed (trace (CWLogs.main remote repr
                            (CWLogs.parsed "list_log_group_streams"
                               [Some group_name; stream_name; region_name]) w))
          = [repr streams])) /\
  (forall group_name filter_pat start stop region_name,
      calls (trace (CWLogs.main remote repr
                      (CWLogs.parsed "filter_log_events"
                         [Some group_name; Some filter_pat; start; stop;
                          region_name]) w))
      = [events_call group_name filter_pat start stop region_name] /\
      printed (trace (CWLogs.main remote repr
                        (CWLogs.parsed "filter_log_events"
                           [Some group_name; Some filter_pat; start; stop;
                            region_name]) w))
      = []) /\
  CWLogs.main remote repr [("command", None)] w = (Ok tt, w, []).
Proof.
  split; [|split; [|reflexivity]].
  - intros group_name stream_name region_name.
    assert (E : CWLogs.main remote repr
                  (CWLogs.parsed "list_log_group_streams"
                     [Some group_name; stream_name; region_name]) w
                = (out <- CWLogs.list_log_group_streams remote group_name
                            stream_name region_name ;;
                   print (repr out)) w).
    { unfold CWLogs.main. cbn -[CWLogs.list_log_group_streams or_else].
      rewrite or_else_Some_empty.
      generalize ((out <- CWLogs.list_log_group_streams remote group_name
                            stream_name region_name ;;
                   print (repr out)) w).
      intros [[r0 w0] t0]. reflexivity. }
    rewrite E. unfold bind. rewrite list_log_group_streams_run.
    destruct (remote _ w) as [[res|e] w1].
    + split.
      * destruct (dict_index res "logStreams"); reflexivity.
      * intros res' w1' streams [= <- <-] ->. reflexivity.
    + split; [reflexivity | discriminate].
  - intros group_name filter_pat start stop region_name.
    assert (E : CWLogs.main remote repr
                  (CWLogs.parsed "filter_log_events"
                     [Some group_name; Some filter_pat; start; stop; region_name]) w
                = (CWLogs.filter_log_events remote group_name filter_pat start
                     stop region_name ;;; ret tt) w).
    { unfold CWLogs.main. cbn -[CWLogs.filter_log_events or_else].
      rewrite !or_else_Some_empty.
      generalize ((CWLogs.filter_log_events remote group_name filter_pat start
                     stop region_name ;;; ret tt) w).
      intros [[r0 w0] t0]. reflexivity. }
    rewrite E. unfold bind. rewrite filter_log_events_run.
    destruct (remote _ w) as [[res|e] w1]; [|split; reflexivity].
    destruct (dict_index res "events"); split; reflexivity.
Qed.
End LogCommands.

(** X18 on the fixed-page service. *)
Lemma log_commands_output_witness :
  printed (trace (CWLogs.main Fake.logs_remote Fake.repr_val
                    (CWLogs.parsed "list_log_group_streams"
                       [Some "g1"; None; None]) tt))
  = ["[...]"].
Proof.
  apply (proj2 (proj1 (log_commands_output unit Fake.logs_remote Fake.repr_val tt)
                  "g1" None None)
           Fake.logs_page tt (PList [PStr "s1"]));
    reflexivity.
Defined.

(** ** dynamo_manager.py: tables and the command line *)

(** A line that is not among the lines printed. *)
Ltac no_line_printed :=
  let H := fresh "H" in
  intros H; cbn in H;
  repeat (destruct H as [H|H]; [discriminate|]);
  contradiction.

Section Tables.
Variable W : Type.
Variable remote : Dynamo.call -> W -> result pyval * W.
Variable open_read : string -> result string.
Variable json_loads : string -> result pyval.

Abbreviation create_params table_name pk pkdef :=
  [("TableName", table_name);
   ("KeySchema", pk);
   ("AttributeDefinitions", pkdef);
   ("ProvisionedThroughput",
    PDict [("ReadCapacityUnits", PInt 5); ("WriteCapacityUnits", PInt 5)])].

Lemma dynamo_sdk_run (c : Dynamo.call) (w : W) :
  Dynamo.sdk remote c w
  = (fst (remote c w), snd (remote c w),
     [Remote c (failure_of (fst (remote c w)))]).
Proof. unfold Dynamo.sdk. destruct (remote c w); reflexivity. Qed.

Lemma create_dynamo_table_run (table_name pk pkdef : pyval) (w : W) :
  Dynamo.create_dynamo_table remote table_name pk pkdef w
  = match remote (Dynamo.CreateTable (create_params table_name pk pkdef)) w with
    | (Ok table, w1) =>
        match remote (Dynamo.WaitTableExists table_name) w1 with
        | (Ok _, w2) =>
            (Ok table, w2,
             [Remote (Dynamo.CreateTable (create_params table_name pk pkdef)) None;
              Remote (Dynamo.WaitTableExists table_name) None])
        | (Raise e, w2) =>
            (Raise e, w2,
             [Remote (Dynamo.CreateTable (create_params table_name pk pkdef)) None;
              Remote (Dynamo.WaitTableExists table_name) (Some e)])
        end
    | (Raise e, w1) =>
        (Raise e, w1,
         [Remote (Dynamo.CreateTable (create_params table_name pk pkdef)) (Some e)])
    end.
Proof.
  unfold Dynamo.create_dynamo_table, bind, Dynamo.sdk, ret.
  destruct (remote (Dynamo.CreateTable _) w) as [[table|e] w1]; [|reflexivity].
  destruct (remote (Dynamo.WaitTableExists table_name) w1) as [[u|e] w2];
    reflexivity.
Qed.

Lemma delete_dynamo_table_run (table_name : string) (w : W) :
  Dynamo.delete_dynamo_table remote table_name w
  = match remote (Dynamo.TableDelete table_name) w with
    | (Ok _, w1) =>
        match remote (Dynamo.TableWaitUntilNotExists table_name) w1 with
        | (Ok _, w2) =>
            (Ok true, w2,
             [Remote (Dynamo.TableDelete table_name) None;
              Remote (Dynamo.TableWaitUntilNotExists table_name) None])
        | (Raise e, w2) =>
            (Raise e, w2,
             [Remote (Dynamo.TableDelete table_name) None;
              Remote (Dynamo.TableWaitUntilNotExists table_name) (Some e)])
        end
    | (Raise e, w1) =>
        (Raise e, w1, [Remote (Dynamo.TableDelete table_name) (Some e)])
    end.
Proof.
  unfold Dynamo.delete_dynamo_table, Dynamo.get_dynamo_table, bind, Dynamo.sdk, ret.
  destruct (remote (Dynamo.TableDelete table_name) w) as [[u|e] w1];
    [|reflexivity].
  destruct (remote (Dynamo.TableWaitUntilNotExists table_name) w1)
    as [[u'|e] w2]; reflexivity.
Qed.

(** X19. [create_dynamo_table] asks for the table with the name, key schema
    and attribute definitions it was given and a provisioned throughput of
    5 read and 5 write units, whatever its arguments; it returns the table
    only after the wait for its existence has returned, and when the
    creation raises, the exception leaves and no wait is made. *)
Theorem create_dynamo_table_then_wait (table_name pk pkdef : pyval) (w : W) :
  (forall table w1 w2 u,
      remote (Dynamo.CreateTable (create_params table_name pk pkdef)) w
      = (Ok table, w1) ->
      remote (Dynamo.WaitTableExists table_name) w1 = (Ok u, w2) ->
      Dynamo.create_dynamo_table remote table_name pk pkdef w
      = (Ok table, w2,
         [Remote (Dynamo.CreateTable (create_params table_name pk pkdef)) None;
          Remote (Dynamo.WaitTableExists table_name) None])) /\
  (forall e w1,
      remote (Dynamo.CreateTable (create_params table_name pk pkdef)) w
      = (Raise e, w1) ->
      Dynamo.create_dynamo_table remote table_name pk pkdef w
      = (Raise e, w1,
         [Remote (Dynamo.CreateTable (create_params table_name pk pkdef))
            (Some e)])) /\
  (exists rest,
      calls (trace (Dynamo.create_dynamo_table remote table_name pk pkdef w))
      = Dynamo.CreateTable (create_params table_name pk pkdef) :: rest).
Proof.
  rewrite create_dynamo_table_run. repeat split.
  - intros table w1 w2 u -> ->. reflexivity.
  - intros e w1 ->. reflexivity.
  - destruct (remote (Dynamo.CreateTable _) w) as [[table|e] w1];
      [|eexists; reflexivity].
    destruct (remote (Dynamo.WaitTableExists table_name) w1) as [[u|e] w2];
      eexists; reflexivity.
Qed.

(** X20. [delete_dynamo_table] deletes the table and then waits for it to
    be gone: it returns [True] only after both calls have returned; when
    the deletion raises (an unknown table, say), the exception leaves and
    no wait is made; when the wait raises, its exception leaves. *)
Theorem delete_dynamo_table_then_wait (table_name : string) (w : W) :
  (forall u u' w1 w2,
      remote (Dynamo.TableDelete table_name) w = (Ok u, w1) ->
      remote (Dynamo.TableWaitUntilNotExists table_name) w1 = (Ok u', w2) ->
      Dynamo.delete_dynamo_table remote table_name w
      = (Ok true, w2,
         [Remote (Dynamo.TableDelete table_name) None;
          Remote (Dynamo.TableWaitUntilNotExists table_name) None])) /\
  (forall e w1,
      remote (Dynamo.TableDelete table_name) w = (Raise e, w1) ->
      Dynamo.delete_dynamo_table remote table_name w
      = (Raise e, w1, [Remote (Dynamo.TableDelete table_name) (Some e)])) /\
  (outcome (Dynamo.delete_dynamo_table remote table_name w) = Ok true ->
   calls (trace (Dynamo.delete_dynamo_table remote table_name w))
   = [Dynamo.TableDelete table_name; Dynamo.TableWaitUntilNotExists table_name]).
Proof.
  rewrite delete_dynamo_table_run. repeat split.
  - intros u u' w1 w2 -> ->. reflexivity.
  - intros e w1 ->. reflexivity.
  - destruct (remote (Dynamo.TableDelete table_name) w) as [[u|e] w1];
      [|discriminate].
    destruct (remote (Dynamo.TableWaitUntilNotExists table_name) w1)
      as [[u'|e] w2]; [reflexivity | discriminate].
Qed.

(** With the keys of an accepted definition, the keyword call goes through. *)
Lemma kwargs_of_required_keys (d : dict) (w : W) :
  keys d = Dynamo.require_keys ->
  Dynamo.create_dynamo_table_kwargs remote (PDict d) w
  = Dynamo.create_dynamo_table remote (dict_get d "table_name" PNone)
      (dict_get d "pk" PNone) (dict_get d "pkdef" PNone) w.
Proof.
  intros K. unfold Dynamo.create_dynamo_table_kwargs. rewrite K. reflexivity.
Qed.

Abbreviation main := (Dynamo.main remote open_read json_loads).
Abbreviation parse_tabledef := (Dynamo.parse_tabledef open_read json_loads).

(** X21. The command [create_table], end to end.  When [parse_tabledef]
    refuses the file (or cannot read or decode it), its exception leaves the
    script, no call is made to the service and nothing is printed.  When the
    file holds the three keys in order, the table is created from the three
    values of the file, the script waits for the table to exist, and only
    then prints "Done"; the unpacking of the definition into keyword
    arguments cannot fail. *)
Theorem create_table_command (tabledef : string) (w : W) :
  (forall e,
      parse_tabledef tabledef = Raise e ->
      main (Dynamo.create_table tabledef) w = (Raise e, w, [])) /\
  (forall text a b c table w1 w2 u,
      open_read tabledef = Ok text ->
      json_loads text = Ok (PDict [("table_name", a); ("pk", b); ("pkdef", c)]) ->
      remote (Dynamo.CreateTable (create_params a b c)) w = (Ok table, w1) ->
      remote (Dynamo.WaitTableExists a) w1 = (Ok u, w2) ->
      main (Dynamo.create_table tabledef) w
      = (Ok tt, w2,
         [Remote (Dynamo.CreateTable (create_params a b c)) None;
          Remote (Dynamo.WaitTableExists a) None;
          Stdout "Done"])).
Proof.
  split.
  - intros e H. unfold Dynamo.main, bind, lift. rewrite H. reflexivity.
  - intros text a b c table w1 w2 u Hf Hj Hc Hw.
    pose proof (parse_tabledef_in_order open_read json_loads tabledef text a b c
                  Hf Hj) as P.
    unfold Dynamo.main. unfold bind at 1 2 3. unfold lift. rewrite P.
    rewrite kwargs_of_required_keys by reflexivity.
    rewrite create_dynamo_table_run. cbn [dict_get String.eqb Ascii.eqb Bool.eqb].
    cbn. rewrite Hc, Hw. reflexivity.
Qed.

(** X22. Whatever the command and the behaviour of the service, the script
    prints "Done" exactly when it ends without an exception; in particular
    a missing sub-command prints the complaint, exits with status 1 and
    does not print "Done". *)
Theorem done_iff_success (pargs : Dynamo.command) (w : W) :
  (In "Done" (printed (trace (main pargs w))) <->
   outcome (main pargs w) = Ok tt) /\
  main Dynamo.no_command w
  = (Raise (OtherError "SystemExit: 1"), w, [Stdout "Invalid/Missing command."]).
Proof.
  split; [|reflexivity].
  assert (Quiet : forall conf t r w1,
             Dynamo.create_dynamo_table_kwargs remote conf w = (r, w1, t) ->
             printed t = []).
  { intros conf t r w1 E. unfold Dynamo.create_dynamo_table_kwargs in E.
    destruct conf as [| | | | |d]; try (inversion E; reflexivity).
    destruct (_ && _); [|inversion E; reflexivity].
    rewrite create_dynamo_table_run in E.
    destruct (remote (Dynamo.CreateTable _) w) as [[tb|e] w2];
      [|inversion E; reflexivity].
    destruct (remote (Dynamo.WaitTableExists _) w2) as [[u|e] w3];
      inversion E; reflexivity. }
  destruct pargs as [tabledef|tablename|].
  - unfold Dynamo.main, bind, lift.
    destruct (Dynamo.parse_tabledef open_read json_loads tabledef)
      as [conf|e]; [|cbn; split; [no_line_printed | discriminate]].
    destruct (Dynamo.create_dynamo_table_kwargs remote conf w)
      as [[[table|e] w1] t] eqn:E; pose proof (Quiet _ _ _ _ E) as Np.
    + cbn. rewrite !printed_app, Np. cbn. split; auto.
    + cbn. rewrite Np. split; [no_line_printed | discriminate].
  - unfold Dynamo.main, bind. rewrite delete_dynamo_table_run.
    destruct (remote (Dynamo.TableDelete tablename) w) as [[u|e] w1];
      [|cbn; split; [no_line_printed | discriminate]].
    destruct (remote (Dynamo.TableWaitUntilNotExists tablename) w1)
      as [[u'|e] w2]; cbn; split; auto; try discriminate.
    no_line_printed.
  - cbn. split; [no_line_printed | discriminate].
Qed.

(** X23. What [parse_tabledef] raises when the file is not a definition: a
    file that cannot be opened, or whose text cannot be decoded, gives the
    exception of [open] or of the decoder; a text that decodes to anything
    but an object (a list, a string, a number, null) gives an
    [AttributeError], not the configuration error. *)
Theorem parse_tabledef_error_kinds (conf_file : string) :
  (forall e, open_read conf_file = Raise e -> parse_tabledef conf_file = Raise e) /\
  (forall text e,
      open_read conf_file = Ok text -> json_loads text = Raise e ->
      parse_tabledef conf_file = Raise e) /\
  (forall text conf,
      open_read conf_file = Ok text -> json_loads text = Ok conf ->
      (forall d, conf <> PDict d) ->
      parse_tabledef conf_file
      = Raise (AttributeError "object has no attribute 'keys'")).
Proof.
  unfold Dynamo.parse_tabledef. repeat split.
  - intros e ->. reflexivity.
  - intros text e -> ->. reflexivity.
  - intros text conf -> -> N.
    destruct conf as [| | | | |d]; try reflexivity.
    destruct (N d eq_refl).
Qed.

(** X24. [parse_tabledef] returns a value exactly when the file decodes to
    an object whose keys are, in this order, table_name, pk and pkdef; the
    value returned is then the decoded object itself, and in every other
    case of an object the error is the configuration error. *)
Theorem parse_tabledef_accepts_exactly (conf_file text : string) (conf : pyval) :
  open_read conf_file = Ok text ->
  json_loads text = Ok conf ->
  (forall result,
      parse_tabledef conf_file = Ok result <->
      result = conf /\ exists d, conf = PDict d /\ keys d = Dynamo.require_keys) /\
  (forall d,
      conf = PDict d -> keys d <> Dynamo.require_keys ->
      parse_tabledef conf_file = Raise (KeyError "Invalid configuration.")).
Proof.
  intros Hf Hj. split.
  - intros result. split.
    + intros H. destruct conf as [| | | | |d];
        try (unfold Dynamo.parse_tabledef in H; rewrite Hf, Hj in H; discriminate).
      destruct (parse_tabledef_accepts_iff open_read json_loads conf_file text d
                  Hf Hj) as [[K R]|[K R]]; rewrite R in H; [|discriminate].
      injection H as <-. split; [reflexivity|]. exists d. auto.
    + intros [-> (d & -> & K)].
      destruct (parse_tabledef_accepts_iff open_read json_loads conf_file text d
                  Hf Hj) as [[_ R]|[K' _]]; [exact R | contradiction].
  - intros d -> K.
    destruct (parse_tabledef_accepts_iff open_read json_loads conf_file text d
                Hf Hj) as [[K' _]|[_ R]]; [contradiction | exact R].
Qed.
End Tables.

(** X16 on the fixed-page service: nothing to send. *)
Lemma log_listing_parameters_witness :
  calls (trace (CWLogs.list_log_group_streams Fake.logs_remote EmptyString None
                  (Some "eu-west-1") tt))
  = [{| CWLogs.region_name := Some "eu-west-1";
        CWLogs.method := CWLogs.describe_log_streams;
        CWLogs.params := [] |}].
Proof.
  destruct (proj2 (log_listing_parameters unit Fake.logs_remote tt)
              EmptyString None (Some "eu-west-1"))
    as (p & Hc & _ & _ & Hp).
  rewrite Hc, (Hp eq_refl eq_refl). reflexivity.
Defined.

(** X19 on the in-memory table store: a first table. *)
Lemma create_dynamo_table_then_wait_witness :
  Dynamo.create_dynamo_table Fake.dynamo_remote (PStr "t1") (PList []) (PList []) []
  = (Ok (PStr "t1"), ["t1"],
     [Remote (Dynamo.CreateTable
                [("TableName", PStr "t1");
                 ("KeySchema", PList []);
                 ("AttributeDefinitions", PList []);
                 ("ProvisionedThroughput",
                  PDict [("ReadCapacityUnits", PInt 5);
                         ("WriteCapacityUnits", PInt 5)])]) None;
      Remote (Dynamo.WaitTableExists (PStr "t1")) None]).
Proof.
  apply (proj1 (create_dynamo_table_then_wait (list string) Fake.dynamo_remote
                  (PStr "t1") (PList []) (PList []) [])
           (PStr "t1") ["t1"] ["t1"] PNone);
    reflexivity.
Defined.

(** X20 on the in-memory table store: a table that exists, one that does
    not. *)
Lemma delete_dynamo_table_then_wait_witness :
  outcome (Dynamo.delete_dynamo_table Fake.dynamo_remote "t1" ["t1"]) = Ok true /\
  Dynamo.delete_dynamo_table Fake.dynamo_remote "t1" []
  = (Raise (ClientError "ResourceNotFoundException"), [],
     [Remote (Dynamo.TableDelete "t1")
        (Some (ClientError "ResourceNotFoundException"))]).
Proof.
  split.
  - rewrite (proj1 (delete_dynamo_table_then_wait (list string)
                      Fake.dynamo_remote "t1" ["t1"])
               PNone PNone [] [] eq_refl eq_refl).
    reflexivity.
  - apply (proj1 (proj2 (delete_dynamo_table_then_wait (list string)
                           Fake.dynamo_remote "t1" []))).
    reflexivity.
Defined.

(** X21 on the in-memory table store: the file in order creates "t1"; the
    file with swapped keys reaches nothing. *)
Lemma create_table_command_witness :
  Dynamo.main Fake.dynamo_remote Fake.open_read Fake.json_loads
    (Dynamo.create_table "t1.json") []
  = (Ok tt, ["t1"],
     [Remote (Dynamo.CreateTable
                [("TableName", PStr "t1");
                 ("KeySchema", PList []);
                 ("AttributeDefinitions", PList []);
                 ("ProvisionedThroughput",
                  PDict [("ReadCapacityUnits", PInt 5);
                         ("WriteCapacityUnits", PInt 5)])]) None;
      Remote (Dynamo.WaitTableExists (PStr "t1")) None;
      Stdout "Done"]) /\
  Dynamo.main Fake.dynamo_remote Fake.open_read Fake.json_loads
    (Dynamo.create_table "swapped.json") []
  = (Raise (KeyError "Invalid configuration."), [], []).
Proof.
  split.
  - apply (proj2 (create_table_command (list string) Fake.dynamo_remote
                    Fake.open_read Fake.json_loads "t1.json" [])
             Fake.in_order_text (PStr "t1") (PList []) (PList []) (PStr "t1")
             ["t1"] ["t1"] PNone);
      reflexivity.
  - apply (proj1 (create_table_command (list string) Fake.dynamo_remote
                    Fake.open_read Fake.json_loads "swapped.json" [])).
    reflexivity.
Defined.

(** X23 on the two files on disk: a third one cannot be opened. *)
Lemma parse_tabledef_error_kinds_witness :
  Dynamo.parse_tabledef Fake.open_read Fake.json_loads "missing.json"
  = Raise (OSError "No such file or directory").
Proof.
  apply (proj1 (parse_tabledef_error_kinds Fake.open_read Fake.json_loads
                  "missing.json")).
  reflexivity.
Defined.

(** X24 on the file in order. *)
Lemma parse_tabledef_accepts_exactly_witness :
  Dynamo.parse_tabledef Fake.open_read Fake.json_loads "t1.json"
  = Ok (PDict Fake.in_order).
Proof.
  apply (proj1 (parse_tabledef_accepts_exactly Fake.open_read Fake.json_loads
                  "t1.json" Fake.in_order_text (PDict Fake.in_order)
                  eq_refl eq_refl)).
  split; [reflexivity|]. exists Fake.in_order. split; reflexivity.
Defined.
